(** * PocketFlow Python bridge: work units, retrying units and flows

    A shallow embedding of [kernel/py/pocketflow_utils.py]: the classes
    [BaseNode], [ConditionalTransition], [Node] and [Flow], and the
    properties of routing, retry, parameter propagation and edge
    registration that their specification states. *)

From Stdlib Require Import ZArith QArith.QArith_base.
From stdpp Require Import gmap strings list.

Local Open Scope string_scope.
Local Open Scope list_scope.

(** ** Python dictionaries

    A Python [dict] keeps its keys in insertion order, and assigning to a
    key that is already present keeps that key's position.  The source
    depends on the order ([list(successors.values())[0]], the key list of
    the routing warning), so a dictionary is an association list whose
    operations follow the Python ones. *)

Module PyDict.

Definition t (V : Type) : Type := list (string * V).

(** [{}] *)
Definition empty {V : Type} : t V := [].

(** [d.get(k)]: [None] when the key is absent. *)
Fixpoint get {V : Type} (k : string) (d : t V) : option V :=
  match d with
  | [] => None
  | (k', v) :: d' => if String.eqb k k' then Some v else get k d'
  end.

(** [k in d] *)
Definition contains {V : Type} (k : string) (d : t V) : bool :=
  match get k d with Some _ => true | None => false end.

(** [d[k] = v]: overwrite in place when present, append otherwise. *)
Fixpoint set {V : Type} (k : string) (v : V) (d : t V) : t V :=
  match d with
  | [] => [(k, v)]
  | (k', v') :: d' =>
      if String.eqb k k' then (k', v) :: d' else (k', v') :: set k v d'
  end.

(** [list(d.keys())], [list(d.values())], [len(d)] *)
Definition keys {V : Type} (d : t V) : list string := map fst d.
Definition values {V : Type} (d : t V) : list V := map snd d.
Definition len {V : Type} (d : t V) : nat := length d.

(** [bool(d)]: a dictionary is truthy when it is not empty. *)
Definition truthy {V : Type} (d : t V) : bool :=
  match d with [] => false | _ :: _ => true end.

(** Keys of a Python dictionary are pairwise distinct. *)
Definition wf {V : Type} (d : t V) : Prop := NoDup (keys d).

End PyDict.

(** ** Values, exceptions, action labels *)

(** The fragment of Python values ([Any]) that the engine itself produces
    or inspects; user payloads are carried as strings, numbers or booleans. *)
Inductive value : Type :=
| VNone
| VBool (b : bool)
| VInt (z : Z)
| VStr (s : string).

(** An exception instance: its class name, its message, and whether its
    class derives from [Exception].  [KeyboardInterrupt], [SystemExit]
    and [GeneratorExit] do not, nor does a user class derived from
    [BaseException] directly: [except Exception] lets those through. *)
Record exn : Type := MkExn {
  exn_class : string;
  exn_msg : string;
  exn_is_Exception : bool
}.

(** An instance of a class that derives from [Exception]. *)
Definition Exn (cls msg : string) : exn := MkExn cls msg true.

Definition ValueError (msg : string) : exn := Exn "ValueError" msg.

(** [KeyboardInterrupt()], which derives from [BaseException] only. *)
Definition KeyboardInterrupt : exn := MkExn "KeyboardInterrupt" "" false.

(** [Optional[str]]: what [post] returns. *)
Definition action : Type := option string.

(** [action or "default"]: [None] and the empty string are falsy. *)
Definition action_or_default (a : action) : string :=
  match a with
  | None => "default"
  | Some s => if String.eqb s "" then "default" else s
  end.

(** An action label seen as a value of type [Any], and back.  In Python
    both directions are the identity on [None] and on strings. *)
Definition value_of_action (a : action) : value :=
  match a with None => VNone | Some s => VStr s end.

Definition action_of_value (v : value) : action :=
  match v with VStr s => Some s | _ => None end.

(** Node objects are referred to by identity. *)
Definition node_id : Type := nat.

(** ** Output of the engine

    The three [print] calls of the engine, kept structured: the text of
    each message is determined by its constructor and arguments. *)
Inductive message : Type :=
| WarnOverwrite (act : string)
    (* Warning: Overwriting successor for action '{action}' *)
| WarnWontRunSuccessors
    (* Warning: Node won't run successors. Use Flow. *)
| WarnFlowEnds (act : action) (available : list string).
    (* Warning: Flow ends: '{action}' not found in {list(keys)} *)

(** ** Routing: the pure core of [Flow.get_next_node]

    Node objects define neither [__bool__] nor [__len__], so every node
    reference is truthy and [not next_node] tests for [None]. *)
Definition is_none {A : Type} (o : option A) : bool :=
  match o with None => true | Some _ => false end.

Definition get_next_node (successors : PyDict.t node_id) (act : action)
  : option node_id * list message :=
  (* First try the specific action *)
  let next_node := PyDict.get (action_or_default act) successors in
  (* If not found and there's only one successor, use it *)
  let next_node :=
    if is_none next_node && (PyDict.len successors =? 1)%nat
    then head (PyDict.values successors)
    else next_node in
  (* If not found and there's a default successor, use it *)
  let next_node :=
    if is_none next_node && PyDict.contains "default" successors
    then PyDict.get "default" successors
    else next_node in
  (* Only warn if we have successors but can't find a match *)
  let out :=
    if is_none next_node && PyDict.truthy successors
    then [WarnFlowEnds act (PyDict.keys successors)]
    else [] in
  (next_node, out).

(** ** Edge registration: the pure core of [BaseNode.next] *)
Definition next_edge (successors : PyDict.t node_id) (node : node_id) (act : string)
  : PyDict.t node_id * list message :=
  let out := if PyDict.contains act successors then [WarnOverwrite act] else [] in
  (PyDict.set act node successors, out).

(** ** Observable events of a run

    The trace of a run lists, in order, the calls the engine makes into the
    overridable methods of a unit, the sleeps between retry attempts and
    the warnings it prints. *)
Inductive event : Type :=
| EvPrep (self : node_id)
| EvExec (self : node_id) (prep_res : value)
| EvPost (self : node_id) (prep_res exec_res : value)
| EvFallback (self : node_id) (prep_res : value) (exc : exn)
| EvSleep (seconds : Q)
| EvPrint (m : message).

(** [range(n)] for a Python integer [n]: empty when [n <= 0]. *)
Definition range (n : Z) : list Z := map Z.of_nat (seq 0 (Z.to_nat n)).

Section Engine.

(** The state user code keeps on its own objects (counters, caches, ...). *)
Context {U : Type}.

(** What a user-written method can read and update: the data of the
    [SharedState] it is handed and the user's own state.  A method either
    returns a value or raises. *)
Definition ustate : Type := PyDict.t value * U.
Definition umeth (A : Type) : Type := ustate -> (exn + A) * ustate.

(** The class of a unit: a bare [BaseNode] subclass, a retrying [Node]
    with its [max_retries] and [wait], or a [Flow] with its [start_node]. *)
Inductive node_kind : Type :=
| KBase
| KNode (max_retries : Z) (wait : Q)
| KFlow (start_node : option node_id).

(** A unit object.  The overridable methods receive [self.params] as
    their first argument. *)
Record node : Type := MkNode {
  params : PyDict.t value;
  successors : PyDict.t node_id;
  kind : node_kind;
  prep : PyDict.t value -> umeth value;
  exec : PyDict.t value -> value -> umeth value;
  post : PyDict.t value -> value -> value -> umeth action;
  exec_fallback : PyDict.t value -> value -> exn -> umeth value
}.

(** [Node.exec_fallback]: [raise exc]. *)
Definition Node_exec_fallback : PyDict.t value -> value -> exn -> umeth value :=
  fun _ _ exc st => (inl exc, st).

(** [Flow.prep], [Flow.exec], [Flow.post]. *)
Definition Flow_prep : PyDict.t value -> umeth value :=
  fun _ st => (inr VNone, st).
Definition Flow_exec : PyDict.t value -> value -> umeth value :=
  fun _ _ st => (inr VNone, st).
Definition Flow_post : PyDict.t value -> value -> value -> umeth action :=
  fun _ _ exec_res st => (inr (action_of_value exec_res), st).

(** The whole state of a run: the objects, the shared context, the user
    state and the trace so far. *)
Record world : Type := MkWorld {
  heap : gmap node_id node;
  shared : PyDict.t value;
  user : U;
  trace : list event
}.

(** A computation returns, raises, or is cut off: [OutOfFuel] when the
    bound on nested runs and loop iterations is used up, [Dangling] when
    a reference names no object (which Python references never do). *)
Inductive outcome (A : Type) : Type :=
| Ret (a : A) (w : world)
| Raise (e : exn) (w : world)
| OutOfFuel
| Dangling.
Arguments Ret {A} a w.
Arguments Raise {A} e w.
Arguments OutOfFuel {A}.
Arguments Dangling {A}.

Definition M (A : Type) : Type := world -> outcome A.

Definition ret {A : Type} (a : A) : M A := fun w => Ret a w.

Definition bind {A B : Type} (m : M A) (k : A -> M B) : M B :=
  fun w =>
    match m w with
    | Ret a w' => k a w'
    | Raise e w' => Raise e w'
    | OutOfFuel => OutOfFuel
    | Dangling => Dangling
    end.

Definition raise {A : Type} (e : exn) : M A := fun w => Raise e w.

(** [try: m except Exception as e: h e]: the handler runs for an
    instance of [Exception]; any other exception goes on propagating. *)
Definition try_except {A : Type} (m : M A) (h : exn -> M A) : M A :=
  fun w =>
    match m w with
    | Raise e w' => if exn_is_Exception e then h e w' else Raise e w'
    | o => o
    end.

Definition emit (ev : event) : M unit :=
  fun w => Ret tt (MkWorld (heap w) (shared w) (user w) (trace w ++ [ev])).

Definition print_all (ms : list message) : M unit :=
  fun w => Ret tt (MkWorld (heap w) (shared w) (user w) (trace w ++ map EvPrint ms)).

Definition get_node (self : node_id) : M node :=
  fun w => match heap w !! self with Some n => Ret n w | None => Dangling end.

Definition put_node (self : node_id) (n : node) : M unit :=
  fun w => Ret tt (MkWorld (<[self := n]> (heap w)) (shared w) (user w) (trace w)).

(** Running a user-written method against the current state. *)
Definition call {A : Type} (m : umeth A) : M A :=
  fun w =>
    let '(r, (sh, us)) := m (shared w, user w) in
    let w' := MkWorld (heap w) sh us (trace w) in
    match r with
    | inl e => Raise e w'
    | inr a => Ret a w'
    end.

End Engine.

Arguments Ret {U A} a w.
Arguments Raise {U A} e w.
Arguments OutOfFuel {U A}.
Arguments Dangling {U A}.
Arguments node : clear implicits.
Arguments world : clear implicits.
Arguments outcome : clear implicits.
Arguments M : clear implicits.
Arguments umeth : clear implicits.
Arguments ustate : clear implicits.

Notation "'let*' x ':=' c1 'in' c2" := (bind c1 (fun x => c2))
  (at level 10, x name, c1 at level 100, c2 at level 200).
Notation "c1 ;; c2" := (bind c1 (fun _ => c2))
  (at level 100, c2 at level 200, right associativity).

Section Classes.

Context {U : Type}.

Local Abbreviation node := (node U).
Local Abbreviation world := (world U).
Local Abbreviation M := (M U).

(** *** Calls into the overridable methods *)

(** [self.prep(shared)] *)
Definition call_prep (self : node_id) : M value :=
  let* n := get_node self in
  emit (EvPrep self) ;;
  call (prep n (params n)).

(** [self.exec(prep_res)] *)
Definition call_exec (self : node_id) (prep_res : value) : M value :=
  let* n := get_node self in
  emit (EvExec self prep_res) ;;
  call (exec n (params n) prep_res).

(** [self.post(shared, prep_res, exec_res)] *)
Definition call_post (self : node_id) (prep_res exec_res : value) : M action :=
  let* n := get_node self in
  emit (EvPost self prep_res exec_res) ;;
  call (post n (params n) prep_res exec_res).

(** [self.exec_fallback(prep_res, exc)] *)
Definition call_exec_fallback (self : node_id) (prep_res : value) (exc : exn) : M value :=
  let* n := get_node self in
  emit (EvFallback self prep_res exc) ;;
  call (exec_fallback n (params n) prep_res exc).

(** *** class BaseNode *)

(** [BaseNode.set_params]: [self.params = params]. *)
Definition BaseNode_set_params (self : node_id) (p : PyDict.t value) : M unit :=
  let* n := get_node self in
  put_node self
    (MkNode p (successors n) (kind n) (prep n) (exec n) (post n) (exec_fallback n)).

(** [BaseNode.next]: warn when the action already has a successor, then
    [self.successors[action] = node]; returns [node]. *)
Definition BaseNode_next (self : node_id) (nd : node_id) (act : string) : M node_id :=
  let* n := get_node self in
  let '(succ', out) := next_edge (successors n) nd act in
  print_all out ;;
  put_node self
    (MkNode (params n) succ' (kind n) (prep n) (exec n) (post n) (exec_fallback n)) ;;
  ret nd.

(** [BaseNode.__rshift__]: [self >> other] is [self.next(other)]. *)
Definition BaseNode_rshift (self other : node_id) : M node_id :=
  BaseNode_next self other "default".

(** [ConditionalTransition(src, action).__rshift__(target)], written
    [src - action >> target]. *)
Definition ConditionalTransition_rshift (src : node_id) (act : string) (target : node_id)
  : M node_id :=
  BaseNode_next src target act.

(** [BaseNode._exec] *)
Definition BaseNode__exec (self : node_id) (prep_res : value) : M value :=
  call_exec self prep_res.

(** *** class Node *)

(** [time.sleep(self.wait)] when [self.wait > 0]. *)
Definition wait_between_attempts (wait : Q) : M unit :=
  if negb (Qle_bool wait 0) then emit (EvSleep wait) else ret tt.

(** The [for retry in range(self.max_retries)] loop of [Node._exec], over
    the indices that remain; falling out of the loop returns [None]. *)
Fixpoint Node__exec_loop (self : node_id) (prep_res : value)
    (max_retries : Z) (wait : Q) (retries : list Z) : M value :=
  match retries with
  | [] => ret VNone
  | retry :: rest =>
      try_except (call_exec self prep_res)
        (fun e =>
           if (retry =? max_retries - 1)%Z
           then call_exec_fallback self prep_res e
           else
             wait_between_attempts wait ;;
             Node__exec_loop self prep_res max_retries wait rest)
  end.

(** [Node._exec] *)
Definition Node__exec (self : node_id) (max_retries : Z) (wait : Q) (prep_res : value)
  : M value :=
  Node__exec_loop self prep_res max_retries wait (range max_retries).

(** [self._exec(prep_res)], dispatched on the class of [self]. *)
Definition _exec (self : node_id) (prep_res : value) : M value :=
  let* n := get_node self in
  match kind n with
  | KNode max_retries wait => Node__exec self max_retries wait prep_res
  | KBase | KFlow _ => BaseNode__exec self prep_res
  end.

(** [BaseNode._run] *)
Definition BaseNode__run (self : node_id) : M action :=
  let* prep_res := call_prep self in
  let* exec_res := _exec self prep_res in
  call_post self prep_res exec_res.

(** *** class Flow *)

(** [Flow.start] *)
Definition Flow_start (self : node_id) (start_node : node_id) : M node_id :=
  let* n := get_node self in
  put_node self
    (MkNode (params n) (successors n) (KFlow (Some start_node))
       (prep n) (exec n) (post n) (exec_fallback n)) ;;
  ret start_node.

(** [Flow.get_next_node] *)
Definition Flow_get_next_node (current : node_id) (act : action) : M (option node_id) :=
  let* n := get_node current in
  let '(next_node, out) := get_next_node (successors n) act in
  print_all out ;;
  ret next_node.

(** [params or {**self.params}]: an absent or empty [params] gives a copy
    of the flow's own. *)
Definition orch_params (given : option (PyDict.t value)) (own : PyDict.t value)
  : PyDict.t value :=
  match given with
  | Some p => if PyDict.truthy p then p else own
  | None => own
  end.

(** The [while current:] loop of [Flow._orch].  [run] is [current._run];
    [fuel] bounds the number of iterations. *)
Fixpoint orch_while (run : node_id -> M action) (fuel : nat)
    (current : option node_id) (p : PyDict.t value) (last_action : action) : M action :=
  match current with
  | None => ret last_action
  | Some c =>
      match fuel with
      | O => fun _ => OutOfFuel
      | S fuel' =>
          BaseNode_set_params c p ;;
          let* last_action := run c in
          let* nxt := Flow_get_next_node c last_action in
          orch_while run fuel' nxt p last_action
      end
  end.

(** [Flow._orch] *)
Definition Flow__orch (run : node_id -> M action) (fuel : nat)
    (self : node_id) (given : option (PyDict.t value)) : M action :=
  let* n := get_node self in
  match kind n with
  | KFlow None => raise (ValueError "Start node not set")
  | KFlow (Some start_node) =>
      let p := orch_params given (params n) in
      orch_while run fuel (Some start_node) p None
  | _ => fun _ => Dangling
  end.

(** [Flow._run] *)
Definition Flow__run (run : node_id -> M action) (fuel : nat) (self : node_id) : M action :=
  let* prep_res := call_prep self in
  let* orch_res := Flow__orch run fuel self None in
  call_post self prep_res (value_of_action orch_res).

(** [self._run(shared)], dispatched on the class of [self].  A flow runs
    the units of its graph, which may be flows themselves: [fuel] bounds
    the nesting as well as the iterations of each loop. *)
Fixpoint _run (fuel : nat) (self : node_id) : M action :=
  match fuel with
  | O => fun _ => OutOfFuel
  | S fuel' =>
      let* n := get_node self in
      match kind n with
      | KFlow _ => Flow__run (_run fuel') fuel' self
      | KBase | KNode _ _ => BaseNode__run self
      end
  end.

(** [BaseNode.run] *)
Definition run (fuel : nat) (self : node_id) : M action :=
  let* n := get_node self in
  print_all (if PyDict.truthy (successors n) then [WarnWontRunSuccessors] else []) ;;
  _run fuel self.

End Classes.

(** ** Notions used by the statements *)

Section Notions.

Context {U : Type}.

Local Abbreviation node := (node U).
Local Abbreviation world := (world U).

(** A computation terminates when it returns or raises. *)
Definition terminates {A : Type} (o : outcome U A) : Prop :=
  match o with
  | Ret _ _ | Raise _ _ => True
  | OutOfFuel | Dangling => False
  end.

(** The world with some events appended to its trace. *)
Definition log (evs : list event) (w : world) : world :=
  MkWorld (heap w) (shared w) (user w) (trace w ++ evs).

(** The world after a user method ran in [w] and left the state [st]. *)
Definition with_ustate (w : world) (st : ustate U) : world :=
  MkWorld (heap w) (fst st) (snd st) (trace w).

(** The unit [n] with its parameter mapping replaced by [p], and the
    world with the object [c] replaced by [n]. *)
Definition with_params (n : node) (p : PyDict.t value) : node :=
  MkNode p (successors n) (kind n) (prep n) (exec n) (post n) (exec_fallback n).

(** The unit [n] with its edge mapping replaced by [succs]. *)
Definition with_successors (n : node) (succs : PyDict.t node_id) : node :=
  MkNode (params n) succs (kind n) (prep n) (exec n) (post n) (exec_fallback n).

Definition with_node (w : world) (c : node_id) (n : node) : world :=
  MkWorld (<[c := n]> (heap w)) (shared w) (user w) (trace w).

(** The user-visible state after [k] consecutive calls of a method. *)
Fixpoint after_calls {A : Type} (f : umeth U A) (k : nat) (st : ustate U) : ustate U :=
  match k with
  | O => st
  | S k' => after_calls f k' (snd (f st))
  end.

(** The events of one failed, non-final attempt of [Node._exec], and of
    [k] of them in a row. *)
Definition failed_attempt (self : node_id) (prep_res : value) (wait : Q) : list event :=
  EvExec self prep_res :: (if negb (Qle_bool wait 0) then [EvSleep wait] else []).

Fixpoint failed_attempts (self : node_id) (prep_res : value) (wait : Q) (k : nat)
  : list event :=
  match k with
  | O => []
  | S k' => failed_attempt self prep_res wait ++ failed_attempts self prep_res wait k'
  end.

(** The world after [k] failed, non-final attempts. *)
Definition after_attempts (self : node_id) (prep_res : value) (wait : Q)
    (f : umeth U value) (k : nat) (w : world) : world :=
  let st := after_calls f k (shared w, user w) in
  MkWorld (heap w) (fst st) (snd st) (trace w ++ failed_attempts self prep_res wait k).

(** How often [exec] and [exec_fallback] were called, read off a trace. *)
Definition is_exec_call (ev : event) : bool :=
  match ev with EvExec _ _ => true | _ => false end.
Definition is_fallback_call (ev : event) : bool :=
  match ev with EvFallback _ _ _ => true | _ => false end.
Definition exec_calls (evs : list event) : nat :=
  length (List.filter is_exec_call evs).
Definition fallback_calls (evs : list event) : nat :=
  length (List.filter is_fallback_call evs).

(** Two unit objects that differ at most in their parameter mapping. *)
Definition same_unit (n n' : node) : Prop :=
  successors n = successors n' /\ kind n = kind n' /\ prep n = prep n' /\
  exec n = exec n' /\ post n = post n' /\ exec_fallback n = exec_fallback n'.

(** Two heaps holding the same graph: the same objects, wired the same
    way, with the same methods. *)
Definition same_graph (h h' : gmap node_id node) : Prop :=
  forall id,
    match h !! id, h' !! id with
    | Some n, Some n' => same_unit n n'
    | None, None => True
    | _, _ => False
    end.

(** A computation preserves the graph when every world it ends in holds
    the graph it started with. *)
Definition preserves {A : Type} (m : M U A) : Prop :=
  forall w,
    match m w with
    | Ret _ w' | Raise _ w' => same_graph (heap w) (heap w')
    | OutOfFuel | Dangling => True
    end.

(** [edge h c t]: the run of [c] can lead to a run of [t], because [t]
    is a successor of [c] or the start unit of the flow [c]. *)
Inductive edge (h : gmap node_id node) : node_id -> node_id -> Prop :=
| edge_successor c n l t :
    h !! c = Some n -> In (l, t) (successors n) -> edge h c t
| edge_start c n s :
    h !! c = Some n -> kind n = KFlow (Some s) -> edge h c s.

(** Every reference held by an object names an object. *)
Definition heap_closed (h : gmap node_id node) : Prop :=
  forall c t, edge h c t -> is_Some (h !! t).

(** No cycle and finitely many units can be reached from [c]: every
    chain of edges that starts at [c] is finite. *)
Definition acyclic_from (h : gmap node_id node) (c : node_id) : Prop :=
  Acc (fun t c' => edge h c' t) c.

(** The units an object refers to: the targets of its edges and, for a
    flow, its start unit. *)
Definition unit_targets (n : node) : list node_id :=
  PyDict.values (successors n) ++
  match kind n with KFlow (Some s) => [s] | _ => [] end.

(** A checkable sufficient condition for a closed heap without cycles:
    every reference goes to an object of strictly smaller rank. *)
Definition ranked_unit (h : gmap node_id node) (rank : node_id -> nat)
    (c : node_id) (n : node) : bool :=
  forallb (fun t => (rank t <? rank c)%nat && negb (is_none (h !! t)))
    (unit_targets n).

Definition ranked_heap (h : gmap node_id node) (rank : node_id -> nat) : bool :=
  forallb (fun cn => ranked_unit h rank (fst cn) (snd cn)) (map_to_list h).

(** With fuel [N] or more, the run of [c] and the orchestration loop
    entered at [c] terminate in every world holding the graph [h0]. *)
Definition runs_from (h0 : gmap node_id node) (N : nat) (c : node_id) : Prop :=
  forall F k, (N <= F)%nat -> (N <= k)%nat ->
    (forall w : world, same_graph h0 (heap w) -> terminates (_run F c w)) /\
    (forall (w : world) p la, same_graph h0 (heap w) ->
       terminates (orch_while (_run F) k (Some c) p la w)).

(** The label an edge must carry to match a captured action exactly, a
    null action standing for ["default"]. *)
Definition label_of (act : action) : string :=
  match act with None => "default" | Some s => s end.

End Notions.

(** ** Sample units and graphs *)

Module Sample.

(** The user state is a call counter. *)
Definition prep_none : PyDict.t value -> umeth nat value :=
  fun _ st => (inr VNone, st).

(** [exec] that raises on every call. *)
Definition exec_always_fails : PyDict.t value -> value -> umeth nat value :=
  fun _ _ st => (inl (Exn "RuntimeError" "boom"), (fst st, S (snd st))).

(** [exec] that raises until its [k]-th call. *)
Definition exec_flaky (k : nat) : PyDict.t value -> value -> umeth nat value :=
  fun _ _ st =>
    let attempt := S (snd st) in
    if (attempt <? k)%nat
    then (inl (ValueError "Attempt failed"), (fst st, attempt))
    else (inr (VStr "success"), (fst st, attempt)).

Definition exec_ok : PyDict.t value -> value -> umeth nat value :=
  fun _ _ st => (inr (VStr "ok"), (fst st, S (snd st))).

(** [post] that records its unit in the shared context and returns a
    fixed action. *)
Definition post_mark (key : string) (act : action)
  : PyDict.t value -> value -> value -> umeth nat action :=
  fun _ _ exec_res st => (inr act, (PyDict.set key exec_res (fst st), snd st)).

Definition unit_ (k : @node_kind) (succs : PyDict.t node_id)
    (ex : PyDict.t value -> value -> umeth nat value)
    (po : PyDict.t value -> value -> value -> umeth nat action) : node nat :=
  MkNode [] succs k prep_none ex po Node_exec_fallback.

Definition flow_ (ps : PyDict.t value) (succs : PyDict.t node_id) (start : option node_id)
  : node nat :=
  MkNode ps succs (KFlow start) Flow_prep Flow_exec Flow_post Node_exec_fallback.

Definition world_of (h : gmap node_id (node nat)) : world nat :=
  MkWorld h [] 0%nat [].

(** A retrying unit that always fails, with three attempts. *)
Definition n_fail3 : node nat :=
  unit_ (KNode 3 0) [] exec_always_fails (post_mark "r" (Some "done")).
Definition w_fail3 : world nat := world_of {[ 1%nat := n_fail3 ]}.

(** A retrying unit that succeeds on its third attempt (scenario 3). *)
Definition n_flaky3 : node nat :=
  unit_ (KNode 3 0) [] (exec_flaky 3) (post_mark "r" (Some "done")).
Definition w_flaky3 : world nat := world_of {[ 1%nat := n_flaky3 ]}.

(** A retrying unit configured with no attempt at all. *)
Definition n_zero : node nat :=
  unit_ (KNode 0 0) [] exec_ok (post_mark "r" (Some "done")).
Definition w_zero : world nat := world_of {[ 1%nat := n_zero ]}.

(** Scenario 1: a linear chain 1 -> 2 -> 3 under flow 0. *)
Definition w_chain : world nat :=
  world_of {[
    0%nat := flow_ [("mode", VStr "fast")] [] (Some 1%nat);
    1%nat := unit_ (KNode 1 0) [("default", 2%nat)] exec_ok (post_mark "a" None);
    2%nat := unit_ KBase [("default", 3%nat)] exec_ok (post_mark "b" (Some "whatever"));
    3%nat := unit_ (KNode 1 0) [] exec_ok (post_mark "c" (Some "done")) ]}.

Definition n_dead_end_flow : node nat := flow_ [] [] (Some 1%nat).

(** Scenario 4: a unit with edges "x" and "y" whose [post] returns "z". *)
Definition w_dead_end : world nat :=
  world_of {[
    0%nat := n_dead_end_flow;
    1%nat := unit_ KBase [("x", 2%nat); ("y", 3%nat)] exec_ok (post_mark "a" (Some "z"));
    2%nat := unit_ KBase [] exec_ok (post_mark "b" (Some "done"));
    3%nat := unit_ KBase [] exec_ok (post_mark "c" (Some "done")) ]}.

(** Scenario 5: outer flow 0 runs unit 1, then sub-flow 10 (units 11 and
    12), then unit 2. *)
Definition n_outer : node nat := flow_ [("k", VInt 1)] [] (Some 1%nat).
Definition n_sub : node nat :=
  flow_ [("stale", VInt 0)] [("default", 2%nat)] (Some 11%nat).
Definition w_nested : world nat :=
  world_of {[
    0%nat := n_outer;
    1%nat := unit_ KBase [("default", 10%nat)] exec_ok (post_mark "u1" None);
    10%nat := n_sub;
    11%nat := unit_ KBase [("default", 12%nat)] exec_ok (post_mark "s1" None);
    12%nat := unit_ KBase [] exec_ok (post_mark "s2" (Some "inner"));
    2%nat := unit_ KBase [] exec_ok (post_mark "u2" (Some "outer")) ]}.

(** A unit with an edge under the empty label and a default edge. *)
Definition w_empty_label : world nat :=
  world_of {[
    1%nat := unit_ KBase [("", 2%nat); ("default", 3%nat)] exec_ok (post_mark "a" (Some ""));
    2%nat := unit_ KBase [] exec_ok (post_mark "b" None);
    3%nat := unit_ KBase [] exec_ok (post_mark "c" None) ]}.

(** A unit with a single edge, labelled "next". *)
Definition w_single : world nat :=
  world_of {[
    1%nat := unit_ KBase [("next", 2%nat)] exec_ok (post_mark "a" (Some "other"));
    2%nat := unit_ KBase [] exec_ok (post_mark "b" None) ]}.

(** Ranks for the nested sample: every reference goes downwards. *)
Definition rank_nested (c : node_id) : nat :=
  match c with
  | 0 => 5 | 1 => 4 | 10 => 3 | 11 => 2 | 12 => 1 | _ => 0
  end%nat.

(** A flow whose start unit was never set. *)
Definition n_unset : node nat := flow_ [] [] None.
Definition w_unset : world nat :=
  MkWorld {[ 0%nat := n_unset ]} [("x", VInt 7)] 0%nat [].

End Sample.

Definition result_of {U A : Type} (o : outcome U A) : option (exn + A) :=
  match o with
  | Ret a _ => Some (inr a)
  | Raise e _ => Some (inl e)
  | _ => None
  end.

Definition world_after {U A : Type} (o : outcome U A) : option (world U) :=
  match o with
  | Ret _ w | Raise _ w => Some w
  | _ => None
  end.

(** ** class SharedState

    The wrapper holds one dictionary, [self.data]; each method is given
    as a function of that dictionary. *)

(** [KeyError(key)]: the exception a failed [d[key]] raises; its
    argument is the missing key. *)
Definition KeyError (key : string) : exn := Exn "KeyError" key.

Module SharedState.

(** [__init__]: [self.data = initial_data or {}]. *)
Definition init (initial_data : option (PyDict.t value)) : PyDict.t value :=
  match initial_data with
  | Some d => if PyDict.truthy d then d else PyDict.empty
  | None => PyDict.empty
  end.

(** [get]: [self.data.get(key, default)]. *)
Definition get (key : string) (default : value) (data : PyDict.t value) : value :=
  match PyDict.get key data with
  | Some v => v
  | None => default
  end.

(** [set] and [__setitem__]: [self.data[key] = value]. *)
Definition set (key : string) (v : value) (data : PyDict.t value) : PyDict.t value :=
  PyDict.set key v data.

Definition setitem (key : string) (v : value) (data : PyDict.t value) : PyDict.t value :=
  PyDict.set key v data.

(** [update]: [self.data.update(updates)] assigns the items of
    [updates] in their order. *)
Definition update (updates : PyDict.t value) (data : PyDict.t value) : PyDict.t value :=
  fold_left (fun d kv => PyDict.set (fst kv) (snd kv) d) updates data.

(** [to_dict]: [self.data.copy()]. *)
Definition to_dict (data : PyDict.t value) : PyDict.t value := data.

(** [__getitem__]: [self.data[key]], a [KeyError] when the key is absent. *)
Definition getitem (key : string) (data : PyDict.t value) : exn + value :=
  match PyDict.get key data with
  | Some v => inr v
  | None => inl (KeyError key)
  end.

(** [__contains__]: [key in self.data]. *)
Definition contains (key : string) (data : PyDict.t value) : bool :=
  PyDict.contains key data.

End SharedState.

(** ** class DataTransformNode *)

Section DataTransform.

Context {U : Type}.

(** [prep]: [shared.get(self.input_key)]. *)
Definition DataTransformNode_prep (input_key : string)
  : PyDict.t value -> umeth U value :=
  fun _ st => (inr (SharedState.get input_key VNone (fst st)), st).

(** [exec]: [self.transform_func(input_data)]. *)
Definition DataTransformNode_exec (transform_func : value -> umeth U value)
  : PyDict.t value -> value -> umeth U value :=
  fun _ input_data st => transform_func input_data st.

(** [post]: [shared[self.output_key] = exec_res; return "default"]. *)
Definition DataTransformNode_post (output_key : string)
  : PyDict.t value -> value -> value -> umeth U action :=
  fun _ _ exec_res st =>
    (inr (Some "default"), (SharedState.setitem output_key exec_res (fst st), snd st)).

(** [DataTransformNode(transform_func, input_key, output_key)]: a
    [Node] with the default [max_retries = 1] and [wait = 0], no
    parameters and no successors yet. *)
Definition DataTransformNode (transform_func : value -> umeth U value)
    (input_key output_key : string) : node U :=
  MkNode PyDict.empty PyDict.empty (KNode 1 0)
    (DataTransformNode_prep input_key)
    (DataTransformNode_exec transform_func)
    (DataTransformNode_post output_key)
    Node_exec_fallback.

(** The unit [n] is a [DataTransformNode] with this transform and these
    keys, whatever parameters and edges it has been given since. *)
Definition is_DataTransformNode (transform_func : value -> umeth U value)
    (input_key output_key : string) (n : node U) : Prop :=
  kind n = KNode 1 0 /\
  prep n = DataTransformNode_prep input_key /\
  exec n = DataTransformNode_exec transform_func /\
  post n = DataTransformNode_post output_key /\
  exec_fallback n = Node_exec_fallback.

(** A transform that touches neither the shared context nor the user
    state: it returns [g x] or raises. *)
Definition pure_transform (g : value -> exn + value) : value -> umeth U value :=
  fun x st => (g x, st).

End DataTransform.

(** ** Further notions *)

Section MoreNotions.

Context {U : Type}.

(** How often the engine slept, read off a trace. *)
Definition is_sleep (ev : event) : bool :=
  match ev with EvSleep _ => true | _ => false end.
Definition sleep_calls (evs : list event) : nat :=
  length (List.filter is_sleep evs).

(** An event of the lifecycle of the unit [c]: a call of one of its
    methods, or a sleep between its attempts. *)
Definition unit_event (c : node_id) (ev : event) : Prop :=
  match ev with
  | EvPrep s | EvExec s _ | EvPost s _ _ | EvFallback s _ _ => s = c
  | EvSleep _ => True
  | EvPrint _ => False
  end.

(** A computation whose events, whenever it ends, all satisfy [P]. *)
Definition emits_only {A : Type} (P : event -> Prop) (m : M U A) : Prop :=
  forall w,
    match m w with
    | Ret _ w' | Raise _ w' =>
        exists evs, trace w' = trace w ++ evs /\ Forall P evs
    | OutOfFuel | Dangling => True
    end.

(** A method that never raises. *)
Definition never_raises {A : Type} (m : umeth U A) : Prop :=
  forall st, exists a, fst (m st) = inr a.

End MoreNotions.

(** ** Further samples *)

Module MoreSamples.

Import Sample.

Definition double (v : value) : exn + value :=
  match v with
  | VInt z => inr (VInt (2 * z))
  | _ => inl (Exn "TypeError" "not a number")
  end.

Definition increment (v : value) : exn + value :=
  match v with
  | VInt z => inr (VInt (z + 1))
  | _ => inl (Exn "TypeError" "not a number")
  end.

Definition n_double : node nat :=
  DataTransformNode (pure_transform double) "input" "mid".

Definition n_increment : node nat :=
  DataTransformNode (pure_transform increment) "mid" "output".

Definition n_double_wired : node nat :=
  with_successors n_double [("default", 2%nat)].

Definition n_pipeline_flow : node nat := flow_ [] [] (Some 1%nat).

(** A two-stage pipeline under flow 0: 1 doubles, 2 increments. *)
Definition w_pipeline : world nat :=
  MkWorld {[
    0%nat := n_pipeline_flow;
    1%nat := n_double_wired;
    2%nat := n_increment ]}
    [("input", VInt 5)] 0%nat [].

(** The same pipeline with no input in the shared context. *)
Definition w_pipeline_no_input : world nat :=
  MkWorld (heap w_pipeline) [] 0%nat [].

(** A unit whose only edge leads back to itself, under flow 0. *)
Definition n_loop : node nat :=
  unit_ KBase [("default", 1%nat)] exec_ok (post_mark "a" None).
Definition n_loop_flow : node nat := flow_ [] [] (Some 1%nat).
Definition w_self_loop : world nat :=
  world_of {[ 0%nat := n_loop_flow; 1%nat := n_loop ]}.

(** A retrying unit that always fails and waits half a second between
    attempts. *)
Definition n_fail_wait : node nat :=
  unit_ (KNode 3 (1 # 2)) [] exec_always_fails (post_mark "r" (Some "done")).
Definition w_fail_wait : world nat := world_of {[ 1%nat := n_fail_wait ]}.

(** A retrying unit whose fallback returns a substitute result. *)
Definition n_fail_soft : node nat :=
  MkNode [] [] (KNode 2 0) prep_none exec_always_fails
    (post_mark "r" (Some "done"))
    (fun _ _ _ st => (inr (VStr "fallback"), st)).
Definition w_fail_soft : world nat := world_of {[ 1%nat := n_fail_soft ]}.

(** Two unconnected units and a flow without start. *)
Definition n_plain : node nat := unit_ KBase [] exec_ok (post_mark "a" None).
Definition w_unwired : world nat :=
  world_of {[ 0%nat := n_unset; 1%nat := n_plain; 2%nat := n_plain; 3%nat := n_plain ]}.

(** A flow whose only unit has no edge and returns "done". *)
Definition n_lone_flow : node nat := flow_ [] [] (Some 1%nat).
Definition w_lone : world nat :=
  world_of {[
    0%nat := n_lone_flow;
    1%nat := unit_ KBase [] exec_ok (post_mark "c" (Some "done")) ]}.

(** A retrying unit whose [exec] raises [KeyboardInterrupt] on every
    call. *)
Definition exec_interrupted : PyDict.t value -> value -> umeth nat value :=
  fun _ _ st => (inl KeyboardInterrupt, (fst st, S (snd st))).
Definition n_interrupt : node nat :=
  unit_ (KNode 3 (1 # 2)) [] exec_interrupted (post_mark "r" (Some "done")).
Definition w_interrupt : world nat := world_of {[ 1%nat := n_interrupt ]}.

(** A retrying unit with a negative attempt count. *)
Definition n_negative : node nat :=
  unit_ (KNode (-2) 0) [] exec_ok (post_mark "r" (Some "done")).
Definition w_negative : world nat := world_of {[ 1%nat := n_negative ]}.

(** A flow whose start unit always fails and has a successor. *)
Definition n_fail_first : node nat :=
  unit_ (KNode 2 0) [("default", 2%nat)] exec_always_fails (post_mark "a" None).
Definition n_failing_flow : node nat := flow_ [] [] (Some 1%nat).
Definition w_failing_flow : world nat :=
  world_of {[ 0%nat := n_failing_flow; 1%nat := n_fail_first; 2%nat := n_plain ]}.

End MoreSamples.

(** * Properties *)

(** ** Dictionaries *)

Module PyDictFacts.

Lemma get_In {V : Type} (k : string) (v : V) (d : PyDict.t V) :
  PyDict.get k d = Some v -> In (k, v) d.
Proof.
  induction d as [|[k' v'] d IH]; simpl; [discriminate|].
  destruct (String.eqb_spec k k') as [->|Hne].
  - intros [= ->]. now left.
  - intros H. right. auto.
Qed.

Lemma get_None_not_key {V : Type} (k : string) (d : PyDict.t V) :
  PyDict.get k d = None <-> ~ In k (PyDict.keys d).
Proof.
  induction d as [|[k' v'] d IH]; simpl.
  - split; auto.
  - destruct (String.eqb_spec k k') as [->|Hne].
    + split; [discriminate|]. intros H. exfalso. apply H. now left.
    + rewrite IH. split.
      * intros H [Heq|Hin]; [congruence|auto].
      * intros H Hin. apply H. now right.
Qed.

Lemma In_get_wf {V : Type} (k : string) (v : V) (d : PyDict.t V) :
  PyDict.wf d -> In (k, v) d -> PyDict.get k d = Some v.
Proof.
  unfold PyDict.wf.
  induction d as [|[k' v'] d IH]; simpl; [tauto|].
  intros Hnd [Heq|Hin].
  - injection Heq as -> ->. now rewrite String.eqb_refl.
  - apply NoDup_cons in Hnd as [Hnotin Hnd].
    destruct (String.eqb_spec k k') as [->|Hne].
    + exfalso. apply Hnotin. apply list_elem_of_In.
      change k' with (fst (k', v)). now apply in_map.
    + auto.
Qed.

Lemma contains_spec {V : Type} (k : string) (d : PyDict.t V) :
  PyDict.contains k d = true <-> In k (PyDict.keys d).
Proof.
  unfold PyDict.contains.
  destruct (PyDict.get k d) as [v|] eqn:Hget.
  - split; [intros _|reflexivity].
    apply get_In in Hget. change k with (fst (k, v)). now apply in_map.
  - split; [discriminate|]. intros Hin. now apply get_None_not_key in Hget.
Qed.

Lemma get_set_eq {V : Type} (k : string) (v : V) (d : PyDict.t V) :
  PyDict.get k (PyDict.set k v d) = Some v.
Proof.
  induction d as [|[k' v'] d IH]; simpl.
  - now rewrite String.eqb_refl.
  - destruct (String.eqb_spec k k') as [->|Hne]; simpl.
    + now rewrite String.eqb_refl.
    + destruct (String.eqb_spec k k'); [congruence|assumption].
Qed.

Lemma get_set_ne {V : Type} (k k0 : string) (v : V) (d : PyDict.t V) :
  k0 <> k -> PyDict.get k0 (PyDict.set k v d) = PyDict.get k0 d.
Proof.
  intros Hne. induction d as [|[k' v'] d IH]; simpl.
  - destruct (String.eqb_spec k0 k); [congruence|reflexivity].
  - destruct (String.eqb_spec k k') as [->|Hne']; simpl.
    + destruct (String.eqb_spec k0 k'); [congruence|reflexivity].
    + now rewrite IH.
Qed.

(** Overwriting keeps the key list; a fresh key goes to the end. *)
Lemma keys_set {V : Type} (k : string) (v : V) (d : PyDict.t V) :
  PyDict.keys (PyDict.set k v d) =
  if PyDict.contains k d then PyDict.keys d else PyDict.keys d ++ [k].
Proof.
  unfold PyDict.contains.
  induction d as [|[k' v'] d IH]; simpl; [reflexivity|].
  destruct (String.eqb_spec k k') as [->|Hne]; simpl; [reflexivity|].
  rewrite IH. now destruct (PyDict.get k d).
Qed.

Lemma wf_empty {V : Type} : PyDict.wf (@PyDict.empty V).
Proof. apply NoDup_nil_2. Qed.

Lemma wf_set {V : Type} (k : string) (v : V) (d : PyDict.t V) :
  PyDict.wf d -> PyDict.wf (PyDict.set k v d).
Proof.
  unfold PyDict.wf. intros Hwf. rewrite keys_set.
  destruct (PyDict.contains k d) eqn:Hc; [assumption|].
  apply NoDup_app. split; [assumption|]. split.
  - intros x Hx Hk. apply list_elem_of_singleton in Hk as ->.
    apply list_elem_of_In, contains_spec in Hx. congruence.
  - apply NoDup_singleton.
Qed.

Lemma In_set_eq {V : Type} (k : string) (v v0 : V) (d : PyDict.t V) :
  PyDict.wf d -> In (k, v0) (PyDict.set k v d) -> v0 = v.
Proof.
  intros Hwf Hin.
  apply (In_get_wf k v0) in Hin; [|now apply wf_set].
  rewrite get_set_eq in Hin. congruence.
Qed.

Lemma len_one {V : Type} (d : PyDict.t V) :
  PyDict.len d = 1%nat -> exists k v, d = [(k, v)].
Proof.
  destruct d as [|[k v] [|? ?]]; simpl; try discriminate. eauto.
Qed.

End PyDictFacts.

(** ** Routing *)

Section Routing.

Context {U : Type}.

Local Abbreviation world := (world U).

Lemma log_nil (w : world) : log [] w = w.
Proof. destruct w. unfold log. simpl. now rewrite app_nil_r. Qed.

Lemma print_all_nil (w : world) : print_all [] w = Ret tt w.
Proof. destruct w. unfold print_all. simpl. now rewrite app_nil_r. Qed.

Lemma print_all_log (ms : list message) (w : world) :
  print_all ms w = Ret tt (log (map EvPrint ms) w).
Proof. reflexivity. Qed.

(** [Flow.get_next_node] in terms of its pure core. *)
Lemma Flow_get_next_node_eq (w : world) c n act :
  heap w !! c = Some n ->
  Flow_get_next_node c act w =
  Ret (fst (get_next_node (successors n) act))
      (log (map EvPrint (snd (get_next_node (successors n) act))) w).
Proof.
  intros Hc. unfold Flow_get_next_node, bind, get_node. rewrite Hc.
  destruct (get_next_node (successors n) act) as [nx out]. reflexivity.
Qed.

(** An exact hit on the looked-up label decides the routing. *)
Lemma get_next_node_hit (succ : PyDict.t node_id) act t :
  PyDict.get (action_or_default act) succ = Some t ->
  get_next_node succ act = (Some t, []).
Proof. intros H. unfold get_next_node. rewrite H. reflexivity. Qed.

Lemma action_or_default_nonempty (s : string) :
  s <> "" -> action_or_default (Some s) = s.
Proof. intros H. simpl. destruct (String.eqb_spec s ""); [contradiction|reflexivity]. Qed.

(** Whatever unit the routing selects is the target of one of the edges. *)
Lemma get_next_node_target (succ : PyDict.t node_id) act t :
  fst (get_next_node succ act) = Some t -> exists l, In (l, t) succ.
Proof.
  unfold get_next_node.
  destruct (PyDict.get (action_or_default act) succ) as [t0|] eqn:Ha; simpl.
  - intros [= ->]. eexists. eapply PyDictFacts.get_In. eassumption.
  - destruct (PyDict.len succ =? 1)%nat eqn:Hlen; simpl.
    + apply Nat.eqb_eq, PyDictFacts.len_one in Hlen as (k & v & ->). simpl.
      intros [= ->]. exists k. now left.
    + unfold PyDict.contains.
      destruct (PyDict.get "default" succ) as [t0|] eqn:Hd; simpl.
      * intros [= ->]. eexists. eapply PyDictFacts.get_In. eassumption.
      * destruct (PyDict.truthy succ); discriminate.
Qed.

(** The routing yields no unit only by rule (e), silently, or by rule (d),
    with the warning. *)
Lemma get_next_node_none (succ : PyDict.t node_id) act out :
  get_next_node succ act = (None, out) ->
  (succ = [] /\ out = []) \/
  (succ <> [] /\ out = [WarnFlowEnds act (PyDict.keys succ)]).
Proof.
  unfold get_next_node.
  destruct (PyDict.get (action_or_default act) succ) as [t0|] eqn:Ha; simpl;
    [discriminate|].
  destruct (PyDict.len succ =? 1)%nat eqn:Hlen; simpl.
  - apply Nat.eqb_eq, PyDictFacts.len_one in Hlen as (k & v & ->). discriminate.
  - unfold PyDict.contains.
    destruct (PyDict.get "default" succ) as [t0|] eqn:Hd; simpl; [discriminate|].
    destruct succ; simpl; intros [= <-]; [left|right]; split; congruence.
Qed.

(** C1, as amended. For every unit and every captured action label that
    is neither null nor the empty string: if the unit's edge mapping has
    an edge under exactly that label, [Flow.get_next_node] returns that
    edge's target and prints nothing, whatever the other edges are (so
    the exact match wins over the single-successor and default
    fallbacks).  A null captured label and an empty one are both looked
    up as the literal label "default". *)
Theorem get_next_node_exact_match (w : world) (c : node_id) (n : node U) :
  heap w !! c = Some n ->
  (forall s t, s <> "" -> PyDict.get s (successors n) = Some t ->
     Flow_get_next_node c (Some s) w = Ret (Some t) w) /\
  (forall t, PyDict.get "default" (successors n) = Some t ->
     Flow_get_next_node c None w = Ret (Some t) w /\
     Flow_get_next_node c (Some "") w = Ret (Some t) w) /\
  fst (get_next_node (successors n) None) =
    fst (get_next_node (successors n) (Some "default")) /\
  fst (get_next_node (successors n) (Some "")) =
    fst (get_next_node (successors n) (Some "default")).
Proof.
  intros Hc. split; [|split; [|split]].
  - intros s t Hs Hget.
    rewrite (Flow_get_next_node_eq w c n _ Hc).
    rewrite (get_next_node_hit _ (Some s) t).
    + simpl. now rewrite log_nil.
    + now rewrite action_or_default_nonempty.
  - intros t Hget. split.
    + rewrite (Flow_get_next_node_eq w c n _ Hc).
      rewrite (get_next_node_hit _ None t) by assumption.
      simpl. now rewrite log_nil.
    + rewrite (Flow_get_next_node_eq w c n _ Hc).
      rewrite (get_next_node_hit _ (Some "") t) by assumption.
      simpl. now rewrite log_nil.
  - reflexivity.
  - reflexivity.
Qed.

(** C2. For every unit with exactly one outgoing edge, [Flow.get_next_node]
    returns that edge's target and prints nothing, for every captured
    action label: for a label that differs from the edge's own just as
    for one that matches it, so the single-successor rule decides before
    the default fallback and the warning are considered. *)
Theorem get_next_node_single_successor (w : world) (c : node_id) (n : node U)
    (l : string) (t : node_id) (act : action) :
  heap w !! c = Some n ->
  PyDict.len (successors n) = 1%nat ->
  In (l, t) (successors n) ->
  Flow_get_next_node c act w = Ret (Some t) w.
Proof.
  intros Hc Hlen Hin.
  rewrite (Flow_get_next_node_eq w c n _ Hc).
  apply PyDictFacts.len_one in Hlen as (k & v & Heq). rewrite Heq in *.
  destruct Hin as [[= -> ->]|[]].
  unfold get_next_node. simpl.
  destruct (String.eqb (action_or_default act) l); simpl; now rewrite log_nil.
Qed.

End Routing.

(** The claim C1 as first stated fails for the empty label: the unit has
    an edge labelled "" to unit 2, the captured label is "", and the
    routing follows the "default" edge to unit 3. *)
Lemma get_next_node_empty_label :
  (exists n, heap Sample.w_empty_label !! 1%nat = Some n /\
             PyDict.get "" (successors n) = Some 2%nat) /\
  Flow_get_next_node 1%nat (Some "") Sample.w_empty_label
    = Ret (Some 3%nat) Sample.w_empty_label /\
  Flow_get_next_node 1%nat (Some "") Sample.w_empty_label
    <> Ret (Some 2%nat) Sample.w_empty_label.
Proof.
  split; [|split].
  - eexists. split; [vm_compute; reflexivity|reflexivity].
  - vm_compute. reflexivity.
  - vm_compute. discriminate.
Qed.

Lemma get_next_node_exact_match_witness :
  Flow_get_next_node 1%nat (Some "default") Sample.w_empty_label
    = Ret (Some 3%nat) Sample.w_empty_label.
Proof.
  pose proof (get_next_node_exact_match Sample.w_empty_label 1%nat _
                ltac:(vm_compute; reflexivity)) as [Hexact _].
  apply Hexact; [discriminate|reflexivity].
Defined.

Lemma get_next_node_single_successor_witness :
  Flow_get_next_node 1%nat (Some "other") Sample.w_single
    = Ret (Some 2%nat) Sample.w_single.
Proof.
  eapply (get_next_node_single_successor Sample.w_single 1%nat _ "next").
  - vm_compute. reflexivity.
  - reflexivity.
  - left. reflexivity.
Defined.

(** ** Edge registration *)

Section EdgeRegistration.

Context {U : Type}.

Local Abbreviation world := (world U).

(** C9. Registering an edge on a unit whose edge-mapping keys are unique
    never raises and returns the target; afterwards the keys are still
    unique, the label leads to the newly registered target and to no
    other, and every other label is untouched.  When the label was
    already present the registration prints the overwrite warning (and
    nothing else); when it was not, it prints nothing. *)
Theorem next_replaces_and_warns (w : world) (self : node_id) (n : node U)
    (nd : node_id) (act : string) :
  heap w !! self = Some n ->
  PyDict.wf (successors n) ->
  exists w' n',
    BaseNode_next self nd act w = Ret nd w' /\
    heap w' !! self = Some n' /\
    PyDict.wf (successors n') /\
    PyDict.get act (successors n') = Some nd /\
    (forall t, In (act, t) (successors n') -> t = nd) /\
    (forall l, l <> act ->
       PyDict.get l (successors n') = PyDict.get l (successors n)) /\
    trace w' = trace w ++
      (if PyDict.contains act (successors n)
       then [EvPrint (WarnOverwrite act)] else []).
Proof.
  intros Hself Hwf.
  unfold BaseNode_next, bind, get_node, next_edge, put_node, ret. rewrite Hself.
  rewrite print_all_log. simpl.
  eexists _, _. split; [reflexivity|]. simpl.
  split; [apply lookup_insert_eq|]. simpl.
  split; [now apply PyDictFacts.wf_set|].
  split; [apply PyDictFacts.get_set_eq|].
  split; [intros t; now apply PyDictFacts.In_set_eq|].
  split; [intros l Hl; now apply PyDictFacts.get_set_ne|].
  now destruct (PyDict.contains act (successors n)).
Qed.

(** Both operator forms register through [BaseNode.next]. *)
Lemma rshift_is_next (self other : node_id) :
  @BaseNode_rshift U self other = BaseNode_next self other "default".
Proof. reflexivity. Qed.

Lemma conditional_rshift_is_next (src target : node_id) (act : string) :
  @ConditionalTransition_rshift U src act target = BaseNode_next src target act.
Proof. reflexivity. Qed.

End EdgeRegistration.

Lemma next_replaces_and_warns_witness :
  exists w' n',
    BaseNode_next 1%nat 1%nat "next" Sample.w_single = Ret 1%nat w' /\
    heap w' !! 1%nat = Some n' /\
    PyDict.get "next" (successors n') = Some 1%nat /\
    trace w' = [EvPrint (WarnOverwrite "next")].
Proof.
  destruct (next_replaces_and_warns Sample.w_single 1%nat _ 1%nat "next"
              ltac:(vm_compute; reflexivity))
    as (w' & n' & Hret & Hn' & _ & Hget & _ & _ & Htr).
  - vm_compute. repeat constructor; intros H; inversion H.
  - exists w', n'. repeat split; assumption.
Defined.

(** ** Retry *)

Section Retry.

Context {U : Type}.

Local Abbreviation world := (world U).

Lemma call_eq {A : Type} (m : umeth U A) (w : world) :
  call m w =
  match fst (m (shared w, user w)) with
  | inl e => Raise e (with_ustate w (snd (m (shared w, user w))))
  | inr a => Ret a (with_ustate w (snd (m (shared w, user w))))
  end.
Proof.
  unfold call, with_ustate.
  destruct (m (shared w, user w)) as [[e|a] [sh us]]; reflexivity.
Qed.

Lemma call_exec_eq (w : world) self n p :
  heap w !! self = Some n ->
  call_exec self p w = call (exec n (params n) p) (log [EvExec self p] w).
Proof.
  intros Hn. unfold call_exec, bind, get_node, emit. now rewrite Hn.
Qed.

Lemma call_exec_fallback_eq (w : world) self n p e :
  heap w !! self = Some n ->
  call_exec_fallback self p e w =
  call (exec_fallback n (params n) p e) (log [EvFallback self p e] w).
Proof.
  intros Hn. unfold call_exec_fallback, bind, get_node, emit. now rewrite Hn.
Qed.

Lemma wait_between_attempts_eq (wait : Q) (w : world) :
  wait_between_attempts wait w =
  Ret tt (log (if negb (Qle_bool wait 0) then [EvSleep wait] else []) w).
Proof.
  unfold wait_between_attempts.
  destruct (negb (Qle_bool wait 0)); [reflexivity|].
  unfold ret. now rewrite log_nil.
Qed.

Lemma after_calls_snoc {A : Type} (f : umeth U A) (k : nat) (st : ustate U) :
  after_calls f (S k) st = snd (f (after_calls f k st)).
Proof.
  revert st. induction k as [|k IH]; intros st; [reflexivity|].
  change (after_calls f (S (S k)) st) with (after_calls f (S k) (snd (f st))).
  now rewrite IH.
Qed.

Lemma range_snoc (N : Z) :
  (1 <= N)%Z ->
  range N = map Z.of_nat (seq 0 (Z.to_nat N - 1)) ++ [(N - 1)%Z].
Proof.
  intros HN. unfold range.
  replace (Z.to_nat N) with (S (Z.to_nat N - 1)) at 1 by lia.
  rewrite seq_S, map_app. simpl. f_equal. f_equal. lia.
Qed.

Lemma exec_calls_failed_attempts self p wait k :
  exec_calls (failed_attempts self p wait k) = k /\
  fallback_calls (failed_attempts self p wait k) = 0%nat.
Proof.
  unfold exec_calls, fallback_calls.
  induction k as [|k [IHe IHf]]; [split; reflexivity|].
  simpl. destruct (negb (Qle_bool wait 0)); simpl; split; congruence.
Qed.

Lemma exec_calls_attempts self p wait k :
  exec_calls (failed_attempts self p wait k ++ [EvExec self p]) = S k /\
  fallback_calls (failed_attempts self p wait k ++ [EvExec self p]) = 0%nat.
Proof.
  destruct (exec_calls_failed_attempts self p wait k) as [He Hf].
  unfold exec_calls, fallback_calls in *.
  rewrite !List.filter_app, !length_app, He, Hf. simpl. split; lia.
Qed.

(** [j] failing attempts, none of them the last one allowed, bring the
    loop to its remaining indices in the world they leave behind. *)
Lemma Node__exec_loop_failures self n p N wait :
  forall (j i : nat) (rest : list Z) (w : world),
    heap w !! self = Some n ->
    (forall m, (m < j)%nat ->
       exists e, fst (exec n (params n) p
                        (after_calls (exec n (params n) p) m (shared w, user w)))
                 = inl e /\ exn_is_Exception e = true) ->
    (Z.of_nat (i + j) <= N - 1)%Z ->
    Node__exec_loop self p N wait (map Z.of_nat (seq i j) ++ rest) w =
    Node__exec_loop self p N wait rest
      (after_attempts self p wait (exec n (params n) p) j w).
Proof.
  induction j as [|j IH]; intros i rest w Hn Hfail Hle.
  - simpl. unfold after_attempts. simpl. destruct w. simpl. now rewrite app_nil_r.
  - simpl. unfold try_except at 1.
    rewrite (call_exec_eq w self n p Hn), call_eq. simpl.
    destruct (Hfail 0%nat ltac:(lia)) as (e & He & Hexc). simpl in He.
    rewrite He, Hexc.
    replace (Z.of_nat i =? N - 1)%Z with false by (symmetry; apply Z.eqb_neq; lia).
    unfold bind at 1. rewrite wait_between_attempts_eq.
    rewrite (IH (S i)).
    + f_equal. unfold after_attempts, log, with_ustate, failed_attempt. simpl.
      rewrite <- surjective_pairing, <- !app_assoc. reflexivity.
    + assumption.
    + intros m Hm. destruct (Hfail (S m) ltac:(lia)) as (e' & He' & Hexc').
      exists e'. split; [|exact Hexc'].
      simpl. rewrite <- surjective_pairing. exact He'.
    + lia.
Qed.

(** C4, as amended. A retrying unit with [max_retries = N >= 1].  If
    each of the [N] calls of [exec] raises an instance of [Exception],
    [Node._exec] calls [exec] exactly [N] times and then [exec_fallback]
    exactly once, with the prepared input and the exception of the last
    call, and returns or raises whatever the fallback does; the
    fallback of [Node] raises that exception.  If the first [k - 1]
    calls raise instances of [Exception] and the [k]-th returns [v], for
    some [k <= N], [Node._exec] returns [v] after exactly [k] calls of
    [exec] and no call of [exec_fallback]. *)
Theorem Node_exec_retries (w : world) (self : node_id) (n : node U)
    (N : Z) (wait : Q) (p : value) :
  heap w !! self = Some n ->
  kind n = KNode N wait ->
  (1 <= N)%Z ->
  let f := exec n (params n) p in
  let st0 := (shared w, user w) in
  ((forall m, (m < Z.to_nat N)%nat ->
      exists e, fst (f (after_calls f m st0)) = inl e /\
                exn_is_Exception e = true) ->
   exists e evs,
     fst (f (after_calls f (Z.to_nat N - 1) st0)) = inl e /\
     exec_calls evs = Z.to_nat N /\ fallback_calls evs = 0%nat /\
     let w' := log evs (with_ustate w (after_calls f (Z.to_nat N) st0)) in
     _exec self p w =
       call (exec_fallback n (params n) p e) (log [EvFallback self p e] w') /\
     (exec_fallback n = Node_exec_fallback ->
      _exec self p w = Raise e (log [EvFallback self p e] w')))
  /\
  (forall (k : nat) (v : value),
     (1 <= k <= Z.to_nat N)%nat ->
     (forall m, (m < k - 1)%nat ->
        exists e, fst (f (after_calls f m st0)) = inl e /\
                  exn_is_Exception e = true) ->
     fst (f (after_calls f (k - 1) st0)) = inr v ->
     exists evs,
       exec_calls evs = k /\ fallback_calls evs = 0%nat /\
       _exec self p w = Ret v (log evs (with_ustate w (after_calls f k st0)))).
Proof.
  intros Hn Hk HN f st0. subst f st0.
  assert (Hexec : _exec self p w = Node__exec_loop self p N wait (range N) w).
  { unfold _exec, bind, get_node. rewrite Hn, Hk. reflexivity. }
  split.
  - intros Hfail.
    destruct (Hfail (Z.to_nat N - 1)%nat ltac:(lia)) as (e & He & Hexc).
    exists e, (failed_attempts self p wait (Z.to_nat N - 1) ++ [EvExec self p]).
    split; [exact He|].
    destruct (exec_calls_attempts self p wait (Z.to_nat N - 1)) as [Hce Hcf].
    split; [rewrite Hce; lia|]. split; [exact Hcf|].
    match goal with |- let w' := ?x in _ => set (w' := x) end.
    assert (Hrun : _exec self p w =
                   call (exec_fallback n (params n) p e)
                     (log [EvFallback self p e] w')).
    { rewrite Hexec, (range_snoc N HN).
      rewrite (Node__exec_loop_failures self n p N wait _ 0%nat _ w Hn).
      - simpl. unfold try_except.
        rewrite (call_exec_eq _ self n p) by exact Hn.
        rewrite call_eq. simpl. rewrite <- surjective_pairing, He, Hexc.
        rewrite Z.eqb_refl.
        rewrite (call_exec_fallback_eq _ self n p e) by exact Hn.
        f_equal. f_equal. subst w'.
        rewrite <- after_calls_snoc.
        replace (S (Z.to_nat N - 1)) with (Z.to_nat N) by lia.
        unfold log, with_ustate, after_attempts. simpl.
        now rewrite <- app_assoc.
      - intros m Hm. apply Hfail. lia.
      - lia. }
    split; [exact Hrun|].
    intros Hdef. rewrite Hrun, Hdef. reflexivity.
  - intros k v Hk1 Hfail Hok.
    exists (failed_attempts self p wait (k - 1) ++ [EvExec self p]).
    destruct (exec_calls_attempts self p wait (k - 1)) as [Hce Hcf].
    split; [rewrite Hce; lia|]. split; [exact Hcf|].
    rewrite Hexec. unfold range.
    replace (Z.to_nat N) with ((k - 1) + S (Z.to_nat N - k))%nat by lia.
    rewrite seq_app, map_app.
    rewrite (Node__exec_loop_failures self n p N wait _ 0%nat _ w Hn).
    + simpl. unfold try_except.
      rewrite (call_exec_eq _ self n p) by exact Hn.
      rewrite call_eq. simpl. rewrite <- surjective_pairing, Hok.
      f_equal.
      rewrite <- after_calls_snoc.
      replace (S (k - 1)) with k by lia.
      unfold log, with_ustate, after_attempts. simpl.
      now rewrite <- app_assoc.
    + exact Hfail.
    + lia.
Qed.

(** C10. A retrying unit with [max_retries = 0]: [Node._exec] returns
    [None] and leaves the world as it was, trace included, so neither
    [exec] nor [exec_fallback] is called. *)
Theorem Node_exec_zero_retries (w : world) (self : node_id) (n : node U)
    (wait : Q) (p : value) :
  heap w !! self = Some n ->
  kind n = KNode 0 wait ->
  _exec self p w = Ret VNone w.
Proof.
  intros Hn Hk. unfold _exec, bind, get_node. rewrite Hn, Hk. reflexivity.
Qed.

End Retry.

(** ** What a run leaves untouched: the graph

    Running units changes their parameter mappings and nothing else on
    the heap: the edges, the classes and the methods stay as they are. *)

Section Preservation.

Context {U : Type}.

Local Abbreviation world := (world U).
Local Abbreviation M := (M U).
Local Abbreviation preserves := (preserves (U:=U)).

Lemma same_unit_refl (n : node U) : same_unit n n.
Proof. repeat split. Qed.

Lemma same_unit_trans (n1 n2 n3 : node U) :
  same_unit n1 n2 -> same_unit n2 n3 -> same_unit n1 n3.
Proof.
  intros (?&?&?&?&?&?) (?&?&?&?&?&?). repeat split; congruence.
Qed.

Lemma same_graph_refl (h : gmap node_id (node U)) : same_graph h h.
Proof. intros id. destruct (h !! id); [apply same_unit_refl|exact I]. Qed.

Lemma same_graph_trans (h1 h2 h3 : gmap node_id (node U)) :
  same_graph h1 h2 -> same_graph h2 h3 -> same_graph h1 h3.
Proof.
  intros H12 H23 id. specialize (H12 id). specialize (H23 id).
  destruct (h1 !! id), (h2 !! id), (h3 !! id); try tauto.
  eapply same_unit_trans; eassumption.
Qed.

Lemma same_graph_lookup (h h' : gmap node_id (node U)) c n :
  same_graph h h' -> h !! c = Some n ->
  exists n', h' !! c = Some n' /\ same_unit n n'.
Proof.
  intros Hg Hc. specialize (Hg c). rewrite Hc in Hg.
  destruct (h' !! c) as [n'|]; [eauto|contradiction].
Qed.

Lemma same_graph_insert (h : gmap node_id (node U)) c n n' :
  h !! c = Some n -> same_unit n n' -> same_graph h (<[c := n']> h).
Proof.
  intros Hc Hu id. destruct (decide (c = id)) as [<-|Hne].
  - now rewrite lookup_insert_eq, Hc.
  - rewrite lookup_insert_ne by assumption.
    destruct (h !! id); [apply same_unit_refl|exact I].
Qed.

Lemma preserves_ret {A : Type} (a : A) : preserves (ret a).
Proof. intros w. apply same_graph_refl. Qed.

Lemma preserves_raise {A : Type} (e : exn) : preserves (@raise U A e).
Proof. intros w. apply same_graph_refl. Qed.

Lemma preserves_cut {A : Type} : preserves (fun _ : world => @OutOfFuel U A).
Proof. intros w. exact I. Qed.

Lemma preserves_dangling {A : Type} : preserves (fun _ : world => @Dangling U A).
Proof. intros w. exact I. Qed.

Lemma preserves_bind {A B : Type} (m : M A) (k : A -> M B) :
  preserves m -> (forall a, preserves (k a)) -> preserves (bind m k).
Proof.
  intros Hm Hk w. unfold bind. specialize (Hm w).
  destruct (m w) as [a w'|e w'| |]; try assumption.
  specialize (Hk a w').
  destruct (k a w') as [b w''|e w''| |]; try exact I;
    eapply same_graph_trans; eassumption.
Qed.

Lemma preserves_try_except {A : Type} (m : M A) (h : exn -> M A) :
  preserves m -> (forall e, preserves (h e)) -> preserves (try_except m h).
Proof.
  intros Hm Hh w. unfold try_except. specialize (Hm w).
  destruct (m w) as [a w'|e w'| |]; try assumption.
  destruct (exn_is_Exception e); [|assumption].
  specialize (Hh e w').
  destruct (h e w') as [b w''|e' w''| |]; try exact I;
    eapply same_graph_trans; eassumption.
Qed.

Lemma preserves_emit (ev : event) : preserves (@emit U ev).
Proof. intros w. apply same_graph_refl. Qed.

Lemma preserves_print_all (ms : list message) : preserves (@print_all U ms).
Proof. intros w. apply same_graph_refl. Qed.

Lemma preserves_get_node (c : node_id) : preserves (@get_node U c).
Proof. intros w. unfold get_node. destruct (heap w !! c); [apply same_graph_refl|exact I]. Qed.

Lemma preserves_call {A : Type} (m : umeth U A) : preserves (call m).
Proof.
  intros w. rewrite call_eq.
  destruct (fst (m (shared w, user w))); apply same_graph_refl.
Qed.

Create HintDb pres.

Local Hint Resolve preserves_ret preserves_raise preserves_cut preserves_dangling
  preserves_emit preserves_print_all preserves_get_node preserves_call : pres.

Ltac pres_step :=
  first [ apply preserves_bind; [|intros ?]
        | apply preserves_try_except; [|intros ?]
        | solve [auto with pres] ].

Lemma preserves_call_prep c : preserves (@call_prep U c).
Proof. unfold call_prep. repeat pres_step. Qed.

Lemma preserves_call_exec c p : preserves (@call_exec U c p).
Proof. unfold call_exec. repeat pres_step. Qed.

Lemma preserves_call_post c p r : preserves (@call_post U c p r).
Proof. unfold call_post. repeat pres_step. Qed.

Lemma preserves_call_exec_fallback c p e : preserves (@call_exec_fallback U c p e).
Proof. unfold call_exec_fallback. repeat pres_step. Qed.

Lemma preserves_set_params c p : preserves (@BaseNode_set_params U c p).
Proof.
  intros w. unfold BaseNode_set_params, bind, get_node, put_node.
  destruct (heap w !! c) as [n|] eqn:Hc; [|exact I]. simpl.
  apply (same_graph_insert _ c n); [assumption|]. repeat split.
Qed.

Lemma preserves_wait wait : preserves (@wait_between_attempts U wait).
Proof.
  unfold wait_between_attempts. destruct (negb _); auto with pres.
Qed.

Local Hint Resolve preserves_call_prep preserves_call_exec preserves_call_post
  preserves_call_exec_fallback preserves_set_params preserves_wait : pres.

Lemma preserves_Node__exec_loop c p N wait retries :
  preserves (@Node__exec_loop U c p N wait retries).
Proof.
  induction retries as [|retry rest IH]; simpl; [auto with pres|].
  apply preserves_try_except; [auto with pres|]. intros e.
  destruct (retry =? N - 1)%Z; [auto with pres|].
  apply preserves_bind; [auto with pres|]. intros _. exact IH.
Qed.

Lemma preserves__exec c p : preserves (@_exec U c p).
Proof.
  unfold _exec. apply preserves_bind; [auto with pres|]. intros n.
  destruct (kind n); [apply preserves_call_exec| |apply preserves_call_exec].
  apply preserves_Node__exec_loop.
Qed.

Lemma preserves_BaseNode__run c : preserves (@BaseNode__run U c).
Proof.
  unfold BaseNode__run.
  apply preserves_bind; [auto with pres|]. intros p.
  apply preserves_bind; [apply preserves__exec|]. intros r.
  auto with pres.
Qed.

Lemma preserves_Flow_get_next_node c a : preserves (@Flow_get_next_node U c a).
Proof.
  unfold Flow_get_next_node. apply preserves_bind; [auto with pres|]. intros n.
  destruct (get_next_node (successors n) a) as [nx out].
  repeat pres_step.
Qed.

Lemma preserves_orch_while (R : node_id -> M action) :
  (forall c, preserves (R c)) ->
  forall k current p la, preserves (orch_while R k current p la).
Proof.
  intros HR. induction k as [|k IH]; intros [c|] p la; simpl; auto with pres.
  apply preserves_bind; [auto with pres|]. intros _.
  apply preserves_bind; [apply HR|]. intros a.
  apply preserves_bind; [apply preserves_Flow_get_next_node|]. intros nxt.
  apply IH.
Qed.

Lemma preserves_Flow__orch (R : node_id -> M action) k f given :
  (forall c, preserves (R c)) -> preserves (Flow__orch R k f given).
Proof.
  intros HR. unfold Flow__orch. apply preserves_bind; [auto with pres|]. intros n.
  destruct (kind n) as [| |[s|]]; auto with pres.
  now apply preserves_orch_while.
Qed.

Lemma preserves_Flow__run (R : node_id -> M action) k f :
  (forall c, preserves (R c)) -> preserves (Flow__run R k f).
Proof.
  intros HR. unfold Flow__run.
  apply preserves_bind; [auto with pres|]. intros p.
  apply preserves_bind; [now apply preserves_Flow__orch|]. intros r.
  auto with pres.
Qed.

Lemma preserves__run fuel : forall c, preserves (@_run U fuel c).
Proof.
  induction fuel as [|fuel IH]; intros c; simpl; [auto with pres|].
  apply preserves_bind; [auto with pres|]. intros n.
  destruct (kind n).
  - apply preserves_BaseNode__run.
  - apply preserves_BaseNode__run.
  - now apply preserves_Flow__run.
Qed.

Lemma preserved_by {A : Type} (m : M A) (w w' : world) (a : A) :
  preserves m -> m w = Ret a w' -> same_graph (heap w) (heap w').
Proof. intros Hm Heq. specialize (Hm w). now rewrite Heq in Hm. Qed.

End Preservation.

(** ** Flows *)

Section Flows.

Context {U : Type}.

Local Abbreviation world := (world U).
Local Abbreviation M := (M U).

Lemma set_params_eq (w : world) c n p :
  heap w !! c = Some n ->
  BaseNode_set_params c p w = Ret tt (with_node w c (with_params n p)).
Proof.
  intros Hc. unfold BaseNode_set_params, bind, get_node. now rewrite Hc.
Qed.

Lemma call_prep_eq (w : world) c n :
  heap w !! c = Some n ->
  call_prep c w = call (prep n (params n)) (log [EvPrep c] w).
Proof.
  intros Hn. unfold call_prep, bind, get_node, emit. now rewrite Hn.
Qed.

Lemma call_post_eq (w : world) c n p r :
  heap w !! c = Some n ->
  call_post c p r w = call (post n (params n) p r) (log [EvPost c p r] w).
Proof.
  intros Hn. unfold call_post, bind, get_node, emit. now rewrite Hn.
Qed.

Lemma action_of_value_of_action (a : action) :
  action_of_value (value_of_action a) = a.
Proof. now destruct a. Qed.

Lemma _run_flow_eq (w : world) f n s fuel :
  heap w !! f = Some n -> kind n = KFlow s ->
  _run (S fuel) f w = Flow__run (_run fuel) fuel f w.
Proof.
  intros Hf Hk. simpl. unfold bind at 1, get_node. now rewrite Hf, Hk.
Qed.

Lemma orch_while_step (R : node_id -> M action) k c p la :
  orch_while R (S k) (Some c) p la =
  (BaseNode_set_params c p ;;
   let* a := R c in
   let* nxt := Flow_get_next_node c a in
   orch_while R k nxt p a).
Proof. reflexivity. Qed.

(** One turn of the loop, given the world after propagation and the
    world the unit's lifecycle leaves. *)
Lemma orch_while_turn (R : node_id -> M action) k c p la (w w0 w1 : world) a n1 :
  BaseNode_set_params c p w = Ret tt w0 ->
  R c w0 = Ret a w1 ->
  heap w1 !! c = Some n1 ->
  orch_while R (S k) (Some c) p la w =
  orch_while R k (fst (get_next_node (successors n1) a)) p a
    (log (map EvPrint (snd (get_next_node (successors n1) a))) w1).
Proof.
  intros Hset Hrun Hn1. rewrite orch_while_step.
  unfold bind at 1. rewrite Hset. unfold bind at 1. rewrite Hrun.
  unfold bind at 1. now rewrite (Flow_get_next_node_eq w1 c n1 a Hn1).
Qed.

(** The run of a flow with the [prep] and [post] of [Flow] returns what
    its orchestration returns. *)
Lemma Flow__run_returns (w w1 : world) f n s fuel a :
  heap w !! f = Some n ->
  kind n = KFlow s ->
  prep n = Flow_prep ->
  post n = Flow_post ->
  Flow__orch (_run fuel) fuel f None (log [EvPrep f] w) = Ret a w1 ->
  _run (S fuel) f w = Ret a (log [EvPost f VNone (value_of_action a)] w1).
Proof.
  intros Hf Hk Hprep Hpost Horch.
  rewrite (_run_flow_eq w f n s fuel Hf Hk). unfold Flow__run.
  unfold bind at 1. rewrite (call_prep_eq w f n Hf), call_eq, Hprep.
  change (fst (Flow_prep (params n) (shared (log [EvPrep f] w),
                                     user (log [EvPrep f] w))))
    with (@inr exn value VNone).
  cbv iota.
  change (with_ustate (log [EvPrep f] w)
            (snd (Flow_prep (params n) (shared (log [EvPrep f] w),
                                        user (log [EvPrep f] w)))))
    with (log [EvPrep f] w).
  unfold bind. rewrite Horch.
  assert (Hg : same_graph (heap w) (heap w1)).
  { apply (preserved_by _ _ _ _
             (preserves_Flow__orch _ fuel f None (preserves__run fuel)) Horch). }
  destruct (same_graph_lookup _ _ f n Hg Hf) as (n1 & Hn1 & Hsame).
  rewrite (call_post_eq w1 f n1 _ _ Hn1), call_eq.
  destruct Hsame as (_ & _ & _ & _ & Hp & _). rewrite <- Hp, Hpost. simpl.
  rewrite action_of_value_of_action. reflexivity.
Qed.

(** C3. A flow [f] with the [prep] and [post] of [Flow] whose loop,
    entered at the start unit, has arrived at a unit [c], and the
    lifecycle of [c] returns the action [a].  If [c] has one or more
    edges, none of them under the label the routing looks up (the
    captured label, or "default" when it is null or empty), not exactly
    one, and none labelled "default", the loop prints the warning that
    names [a] and the list of available labels and ends without
    raising: the orchestration of [f] returns [a], and so does the run
    of [f], as the flow's result.  If [c] has no edge at all, the
    orchestration and the run of [f] return [a] and nothing is
    printed. *)
Theorem orch_ends_at_dead_end (fuel k : nat) (wf w w0 w1 : world)
    (f s c : node_id) (nf n1 : node U) (la a : action) :
  heap wf !! f = Some nf ->
  kind nf = KFlow (Some s) ->
  prep nf = Flow_prep ->
  post nf = Flow_post ->
  orch_while (_run fuel) fuel (Some s) (params nf) None (log [EvPrep f] wf) =
    orch_while (_run fuel) (S k) (Some c) (params nf) la w ->
  BaseNode_set_params c (params nf) w = Ret tt w0 ->
  _run fuel c w0 = Ret a w1 ->
  heap w1 !! c = Some n1 ->
  (PyDict.truthy (successors n1) = true ->
   PyDict.get (action_or_default a) (successors n1) = None ->
   PyDict.len (successors n1) <> 1%nat ->
   PyDict.get "default" (successors n1) = None ->
   let w2 := log [EvPrint (WarnFlowEnds a (PyDict.keys (successors n1)))] w1 in
   orch_while (_run fuel) (S k) (Some c) (params nf) la w = Ret a w2 /\
   Flow__orch (_run fuel) fuel f None (log [EvPrep f] wf) = Ret a w2 /\
   _run (S fuel) f wf = Ret a (log [EvPost f VNone (value_of_action a)] w2))
  /\
  (successors n1 = [] ->
   orch_while (_run fuel) (S k) (Some c) (params nf) la w = Ret a w1 /\
   Flow__orch (_run fuel) fuel f None (log [EvPrep f] wf) = Ret a w1 /\
   _run (S fuel) f wf = Ret a (log [EvPost f VNone (value_of_action a)] w1)).
Proof.
  intros Hf Hkf Hprep Hpost Harrive Hset Hrun Hn1.
  assert (Horch : Flow__orch (_run fuel) fuel f None (log [EvPrep f] wf) =
                  orch_while (_run fuel) (S k) (Some c) (params nf) la w).
  { unfold Flow__orch, bind, get_node.
    change (heap (log [EvPrep f] wf)) with (heap wf).
    rewrite Hf, Hkf. exact Harrive. }
  assert (Hflow : forall w2,
             orch_while (_run fuel) (S k) (Some c) (params nf) la w = Ret a w2 ->
             orch_while (_run fuel) (S k) (Some c) (params nf) la w = Ret a w2 /\
             Flow__orch (_run fuel) fuel f None (log [EvPrep f] wf) = Ret a w2 /\
             _run (S fuel) f wf =
               Ret a (log [EvPost f VNone (value_of_action a)] w2)).
  { intros w2 Hloop. split; [exact Hloop|].
    assert (Ho : Flow__orch (_run fuel) fuel f None (log [EvPrep f] wf) = Ret a w2)
      by (rewrite Horch; exact Hloop).
    split; [exact Ho|].
    exact (Flow__run_returns wf w2 f nf (Some s) fuel a Hf Hkf Hprep Hpost Ho). }
  split.
  - intros Hne Ha Hb Hc. cbv zeta. apply Hflow.
    rewrite (orch_while_turn _ k c (params nf) la w w0 w1 a n1 Hset Hrun Hn1).
    unfold get_next_node. rewrite Ha. simpl.
    apply Nat.eqb_neq in Hb. rewrite Hb. simpl.
    unfold PyDict.contains. rewrite Hc. simpl. rewrite Hne. simpl.
    destruct k; reflexivity.
  - intros Hnil. apply Hflow.
    rewrite (orch_while_turn _ k c (params nf) la w w0 w1 a n1 Hset Hrun Hn1).
    rewrite Hnil. unfold get_next_node. simpl. rewrite log_nil.
    destruct k; reflexivity.
Qed.

(** C5. A flow whose start unit is unset.  [Flow._orch] raises the
    [ValueError] at once and leaves the world as it was.  [Flow._run]
    raises as well, after a single call into user code, the flow's own
    [prep]: no [exec], no [post], no method of any other unit.  With
    the [prep] of [Flow] the exception is that [ValueError] and the
    shared context, the user state and the heap are unchanged. *)
Theorem Flow_without_start_raises (w : world) (f : node_id) (n : node U) :
  heap w !! f = Some n ->
  kind n = KFlow None ->
  (forall R k given,
     Flow__orch R k f given w = Raise (ValueError "Start node not set") w) /\
  (forall fuel, exists e w',
     _run (S fuel) f w = Raise e w' /\
     trace w' = trace w ++ [EvPrep f] /\ heap w' = heap w) /\
  (prep n = Flow_prep ->
   forall fuel,
     _run (S fuel) f w =
       Raise (ValueError "Start node not set") (log [EvPrep f] w)).
Proof.
  intros Hf Hk.
  assert (Horch : forall (w' : world) R k given,
             heap w' = heap w ->
             Flow__orch R k f given w' = Raise (ValueError "Start node not set") w').
  { intros w' R k given Hh. unfold Flow__orch, bind, get_node.
    rewrite Hh, Hf, Hk. reflexivity. }
  split; [|split].
  - intros R k given. now apply Horch.
  - intros fuel. rewrite (_run_flow_eq w f n None fuel Hf Hk).
    unfold Flow__run. unfold bind at 1.
    rewrite (call_prep_eq w f n Hf), call_eq. simpl.
    destruct (fst (prep n (params n) (shared w, user w))) as [e|v].
    + eexists _, _. split; [reflexivity|]. split; reflexivity.
    + unfold bind at 1. rewrite Horch by reflexivity.
      eexists _, _. split; [reflexivity|]. split; reflexivity.
  - intros Hprep fuel. rewrite (_run_flow_eq w f n None fuel Hf Hk).
    unfold Flow__run. unfold bind at 1.
    rewrite (call_prep_eq w f n Hf), call_eq, Hprep. simpl.
    unfold bind at 1. rewrite Horch by reflexivity.
    reflexivity.
Qed.

(** C6. A flow with the [prep] and [post] of [Flow].  Its [prep] returns
    [None] and leaves the shared context and the user state alone.  Its
    [_run] returns exactly the action its orchestration returns, in the
    world the orchestration ends in (only the call of [post] is added to
    the trace), and raises what the orchestration raises.  When the flow
    is the current unit of an outer loop, the outer loop resolves the
    next unit from that action and goes on from the world in which the
    inner orchestration has ended. *)
Theorem Flow_run_passes_through (w : world) (f : node_id) (n : node U)
    (s : option node_id) (fuel : nat) :
  heap w !! f = Some n ->
  kind n = KFlow s ->
  prep n = Flow_prep ->
  post n = Flow_post ->
  (forall ps st, @Flow_prep U ps st = (inr VNone, st)) /\
  (forall a w1,
     Flow__orch (_run fuel) fuel f None (log [EvPrep f] w) = Ret a w1 ->
     _run (S fuel) f w = Ret a (log [EvPost f VNone (value_of_action a)] w1)) /\
  (forall e w1,
     Flow__orch (_run fuel) fuel f None (log [EvPrep f] w) = Raise e w1 ->
     _run (S fuel) f w = Raise e w1) /\
  (forall wp p la k a w1,
     BaseNode_set_params f p wp = Ret tt w ->
     Flow__orch (_run fuel) fuel f None (log [EvPrep f] w) = Ret a w1 ->
     orch_while (_run (S fuel)) (S k) (Some f) p la wp =
       (let* nxt := Flow_get_next_node f a in
        orch_while (_run (S fuel)) k nxt p a)
         (log [EvPost f VNone (value_of_action a)] w1)).
Proof.
  intros Hf Hk Hprep Hpost.
  assert (Hstart : _run (S fuel) f w =
                   (let* orch_res := Flow__orch (_run fuel) fuel f None in
                    call_post f VNone (value_of_action orch_res))
                     (log [EvPrep f] w)).
  { rewrite (_run_flow_eq w f n s fuel Hf Hk). unfold Flow__run.
    unfold bind at 1. rewrite (call_prep_eq w f n Hf), call_eq, Hprep.
    reflexivity. }
  assert (Hret : forall a w1,
             Flow__orch (_run fuel) fuel f None (log [EvPrep f] w) = Ret a w1 ->
             _run (S fuel) f w = Ret a (log [EvPost f VNone (value_of_action a)] w1)).
  { intros a w1 Horch. rewrite Hstart. unfold bind. rewrite Horch.
    assert (Hg : same_graph (heap w) (heap w1)).
    { apply (preserved_by _ _ _ _
               (preserves_Flow__orch _ fuel f None (preserves__run fuel)) Horch). }
    destruct (same_graph_lookup _ _ f n Hg Hf) as (n1 & Hn1 & Hsame).
    rewrite (call_post_eq w1 f n1 _ _ Hn1), call_eq.
    destruct Hsame as (_ & _ & _ & _ & Hp & _). rewrite <- Hp, Hpost. simpl.
    rewrite action_of_value_of_action. reflexivity. }
  split; [reflexivity|]. split; [exact Hret|]. split.
  - intros e w1 Horch. rewrite Hstart. unfold bind. now rewrite Horch.
  - intros wp p la k a w1 Hset Horch.
    rewrite orch_while_step. unfold bind at 1. rewrite Hset.
    unfold bind at 1. now rewrite (Hret a w1 Horch).
Qed.

(** C8. A flow [f] run through [Flow._run] hands its own parameter
    mapping to the orchestration loop.  Each step of the loop first
    replaces the parameter mapping of the current unit [c] by the
    mapping [p] the loop carries: in the world in which the lifecycle of
    [c] then runs, the parameters of [c] are [p], every key of its old
    mapping that [p] lacks is gone, its [prep] is handed [p], and
    nothing else about [c] has changed. *)
Theorem orch_overwrites_params (w : world) (f c : node_id) (nf n : node U)
    (s : node_id) (R : node_id -> M action) (k : nat)
    (p : PyDict.t value) (la : action) :
  heap w !! f = Some nf ->
  kind nf = KFlow (Some s) ->
  heap w !! c = Some n ->
  Flow__orch R k f None w = orch_while R k (Some s) (params nf) None w /\
  exists w0 n0,
    BaseNode_set_params c p w = Ret tt w0 /\
    heap w0 !! c = Some n0 /\
    params n0 = p /\
    same_unit n n0 /\
    (forall key, PyDict.contains key (params n) = true ->
                 PyDict.contains key p = false ->
                 PyDict.get key (params n0) = None) /\
    call_prep c w0 = call (prep n p) (log [EvPrep c] w0) /\
    orch_while R (S k) (Some c) p la w =
      (let* a := R c in
       let* nxt := Flow_get_next_node c a in
       orch_while R k nxt p a) w0.
Proof.
  intros Hf Hk Hc. split.
  - unfold Flow__orch, bind, get_node. rewrite Hf, Hk. reflexivity.
  - exists (with_node w c (with_params n p)), (with_params n p).
    assert (Hlook : heap (with_node w c (with_params n p)) !! c
                    = Some (with_params n p)) by apply lookup_insert_eq.
    split; [now apply set_params_eq|]. split; [exact Hlook|].
    split; [reflexivity|]. split; [repeat split|]. split.
    + intros key _ Hp. simpl. unfold PyDict.contains in Hp.
      destruct (PyDict.get key p); [discriminate|reflexivity].
    + split; [now rewrite (call_prep_eq _ c _ Hlook)|].
      rewrite orch_while_step. unfold bind at 1.
      now rewrite (set_params_eq w c n p Hc).
Qed.

End Flows.

(** ** Termination *)

Section Termination.

Context {U : Type}.

Local Abbreviation world := (world U).
Local Abbreviation M := (M U).

Lemma terminates_bind {A B : Type} (m : M A) (k : A -> M B) (w : world) :
  terminates (m w) ->
  (forall a w', m w = Ret a w' -> terminates (k a w')) ->
  terminates (bind m k w).
Proof.
  unfold bind. destruct (m w) as [a w'|e w'| |]; simpl; intros Hm Hk; auto.
Qed.

Lemma terminates_call {A : Type} (m : umeth U A) (w : world) : terminates (call m w).
Proof. rewrite call_eq. now destruct (fst (m (shared w, user w))). Qed.

Lemma terminates_call_prep c (w : world) :
  is_Some (heap w !! c) -> terminates (call_prep c w).
Proof. intros [n Hn]. rewrite (call_prep_eq w c n Hn). apply terminates_call. Qed.

Lemma terminates_call_post c p r (w : world) :
  is_Some (heap w !! c) -> terminates (call_post c p r w).
Proof. intros [n Hn]. rewrite (call_post_eq w c n p r Hn). apply terminates_call. Qed.

Lemma terminates_call_exec c p (w : world) :
  is_Some (heap w !! c) -> terminates (call_exec c p w).
Proof. intros [n Hn]. rewrite (call_exec_eq w c n p Hn). apply terminates_call. Qed.

Lemma terminates_call_exec_fallback c p e (w : world) :
  is_Some (heap w !! c) -> terminates (call_exec_fallback c p e w).
Proof.
  intros [n Hn]. rewrite (call_exec_fallback_eq w c n p e Hn). apply terminates_call.
Qed.

(** An object present before a computation is present after it. *)
Lemma present_after {A : Type} (m : M A) (w w' : world) (a : A) c :
  preserves m -> m w = Ret a w' ->
  is_Some (heap w !! c) -> is_Some (heap w' !! c).
Proof.
  intros Hm Heq [n Hn].
  destruct (same_graph_lookup _ _ c n (preserved_by m w w' a Hm Heq) Hn)
    as (n' & Hn' & _).
  eauto.
Qed.

Lemma terminates_Node__exec_loop c p N wait :
  forall retries (w : world),
    is_Some (heap w !! c) ->
    terminates (Node__exec_loop c p N wait retries w).
Proof.
  induction retries as [|retry rest IH]; intros w Hc; [exact I|].
  destruct Hc as [n Hn]. simpl. unfold try_except.
  rewrite (call_exec_eq w c n p Hn), call_eq.
  destruct (fst (exec n (params n) p _)) as [e|v]; [|exact I].
  destruct (exn_is_Exception e); [|exact I].
  destruct (retry =? N - 1)%Z.
  - apply terminates_call_exec_fallback. simpl. eauto.
  - unfold bind. rewrite wait_between_attempts_eq. apply IH. simpl. eauto.
Qed.

Lemma terminates__exec c p (w : world) :
  is_Some (heap w !! c) -> terminates (_exec c p w).
Proof.
  intros Hc. pose proof Hc as [n Hn]. unfold _exec, bind, get_node. rewrite Hn.
  destruct (kind n).
  - now apply terminates_call_exec.
  - now apply terminates_Node__exec_loop.
  - now apply terminates_call_exec.
Qed.

Lemma terminates_BaseNode__run c (w : world) :
  is_Some (heap w !! c) -> terminates (BaseNode__run c w).
Proof.
  intros Hc. unfold BaseNode__run.
  apply terminates_bind; [now apply terminates_call_prep|].
  intros p w1 H1.
  assert (Hc1 : is_Some (heap w1 !! c))
    by (eapply present_after; [apply preserves_call_prep|eassumption|assumption]).
  apply terminates_bind; [now apply terminates__exec|].
  intros r w2 H2. apply terminates_call_post.
  eapply present_after; [apply preserves__exec|eassumption|assumption].
Qed.

Lemma edge_targets (h : gmap node_id (node U)) c t :
  edge h c t <-> exists n, h !! c = Some n /\ In t (unit_targets n).
Proof.
  unfold unit_targets. split.
  - intros [c' n l t' Hc Hin|c' n s Hc Hk]; exists n; split; try assumption;
      apply in_or_app.
    + left. change t' with (snd (l, t')). now apply in_map.
    + right. rewrite Hk. now left.
  - intros (n & Hc & Hin). apply in_app_or in Hin as [Hin|Hin].
    + apply in_map_iff in Hin as ([l t'] & <- & Hin).
      eapply edge_successor; eassumption.
    + destruct (kind n) as [| |[s|]] eqn:Hk; simpl in Hin; try contradiction.
      destruct Hin as [<-|[]]. eapply edge_start; eassumption.
Qed.

Lemma runs_from_mono (h0 : gmap node_id (node U)) N N' c :
  (N <= N')%nat -> runs_from h0 N c -> runs_from h0 N' c.
Proof. intros Hle H F k HF Hk. apply H; lia. Qed.

Lemma runs_from_bound (h0 : gmap node_id (node U)) (l : list node_id) :
  (forall t, In t l -> exists N, runs_from h0 N t) ->
  exists N, forall t, In t l -> runs_from h0 N t.
Proof.
  induction l as [|t l IH]; intros H.
  - exists 0%nat. intros t [].
  - destruct (H t (or_introl eq_refl)) as [Nt Ht].
    destruct IH as [Nl Hl]; [intros t' Hin; apply H; now right|].
    exists (Nt `max` Nl)%nat. intros t' [<-|Hin].
    + eapply runs_from_mono; [|exact Ht]. lia.
    + eapply runs_from_mono; [|exact (Hl t' Hin)]. lia.
Qed.

(** The fuel a unit needs is one more than what the units it refers to
    need. *)
Lemma runs_from_step (h0 : gmap node_id (node U)) c n0 N :
  h0 !! c = Some n0 ->
  (forall t, In t (unit_targets n0) -> runs_from h0 N t) ->
  runs_from h0 (S N) c.
Proof.
  intros Hn0 Htargets F k HF Hk.
  destruct F as [|F]; [lia|]. destruct k as [|k]; [lia|].
  assert (Hrun : forall w : world,
             same_graph h0 (heap w) -> terminates (_run (S F) c w)).
  { intros w Hg.
    destruct (same_graph_lookup h0 (heap w) c n0 Hg Hn0) as (n & Hn & Hsame).
    assert (Hc : is_Some (heap w !! c)) by eauto.
    simpl. unfold bind at 1, get_node. rewrite Hn.
    destruct (kind n) as [| |start] eqn:Hkind;
      [now apply terminates_BaseNode__run..|].
    unfold Flow__run. apply terminates_bind; [now apply terminates_call_prep|].
    intros p w1 H1.
    assert (Hg1 : same_graph h0 (heap w1)).
    { eapply same_graph_trans; [exact Hg|].
      eapply preserved_by; [apply preserves_call_prep|exact H1]. }
    apply terminates_bind.
    - destruct (same_graph_lookup h0 (heap w1) c n0 Hg1 Hn0) as (n1 & Hn1 & Hsame1).
      unfold Flow__orch, bind, get_node. rewrite Hn1.
      assert (Hk1 : kind n1 = KFlow start).
      { destruct Hsame as (_ & Hka & _). destruct Hsame1 as (_ & Hkb & _). congruence. }
      rewrite Hk1. destruct start as [s|]; [|exact I].
      apply (Htargets s); [|lia|lia|exact Hg1].
      unfold unit_targets. apply in_or_app. right.
      destruct Hsame as (_ & Hka & _). rewrite Hka, Hkind. now left.
    - intros a w2 H2. apply terminates_call_post.
      eapply present_after;
        [apply (preserves_Flow__orch _ F c None (preserves__run F))|exact H2|].
      destruct (same_graph_lookup h0 (heap w1) c n0 Hg1 Hn0) as (n1 & Hn1 & _). eauto. }
  split; [exact Hrun|].
  intros w p la Hg. rewrite orch_while_step.
  destruct (same_graph_lookup h0 (heap w) c n0 Hg Hn0) as (n & Hn & Hsame).
  apply terminates_bind; [rewrite (set_params_eq w c n p Hn); exact I|].
  intros [] w0 H0.
  assert (Hg0 : same_graph h0 (heap w0)).
  { eapply same_graph_trans; [exact Hg|].
    eapply preserved_by; [apply preserves_set_params|exact H0]. }
  apply terminates_bind; [now apply Hrun|].
  intros a w1 H1.
  assert (Hg1 : same_graph h0 (heap w1)).
  { eapply same_graph_trans; [exact Hg0|].
    eapply preserved_by; [apply (preserves__run (S F))|exact H1]. }
  destruct (same_graph_lookup h0 (heap w1) c n0 Hg1 Hn0) as (n1 & Hn1 & Hsame1).
  unfold bind. rewrite (Flow_get_next_node_eq w1 c n1 a Hn1).
  destruct (fst (get_next_node (successors n1) a)) as [t|] eqn:Hnx.
  - apply get_next_node_target in Hnx as [l Hin].
    apply (Htargets t); [|lia|lia|exact Hg1].
    unfold unit_targets. apply in_or_app. left.
    destruct Hsame1 as (Hsucc & _). rewrite Hsucc.
    change t with (snd (l, t)). now apply in_map.
  - destruct k; exact I.
Qed.

Lemma runs_from_acc (h0 : gmap node_id (node U)) :
  heap_closed h0 ->
  forall c, acyclic_from h0 c -> is_Some (h0 !! c) -> exists N, runs_from h0 N c.
Proof.
  intros Hclosed c Hacc. unfold acyclic_from in Hacc.
  induction Hacc as [c _ IH]. intros [n0 Hn0].
  destruct (runs_from_bound h0 (unit_targets n0)) as [N HN].
  - intros t Hin.
    assert (Hedge : edge h0 c t) by (apply edge_targets; eauto).
    apply IH; [exact Hedge|]. eapply Hclosed. exact Hedge.
  - exists (S N). now apply (runs_from_step h0 c n0).
Qed.

(** C7. In a heap whose references all name objects, a run of a unit [f]
    (a flow in particular) from which every chain of edges and start
    references is finite terminates: with enough fuel it returns or
    raises, whatever the user methods do. *)
Theorem acyclic_run_terminates (w : world) (f : node_id) :
  heap_closed (heap w) ->
  is_Some (heap w !! f) ->
  acyclic_from (heap w) f ->
  exists N, forall fuel, (N <= fuel)%nat -> terminates (_run fuel f w).
Proof.
  intros Hclosed Hf Hacc.
  destruct (runs_from_acc (heap w) Hclosed f Hacc Hf) as [N HN].
  exists N. intros fuel Hfuel.
  apply (HN fuel fuel Hfuel Hfuel). apply same_graph_refl.
Qed.

(** Ranks that decrease along every reference give both hypotheses. *)
Lemma ranked_heap_edge (h : gmap node_id (node U)) (rank : node_id -> nat) :
  ranked_heap h rank = true ->
  forall c t, edge h c t -> (rank t < rank c)%nat /\ is_Some (h !! t).
Proof.
  unfold ranked_heap, ranked_unit. intros Hall c t Hedge.
  apply edge_targets in Hedge as (n & Hc & Hin).
  rewrite forallb_forall in Hall.
  assert (Hcn : In (c, n) (map_to_list h))
    by (apply list_elem_of_In, elem_of_map_to_list; exact Hc).
  specialize (Hall _ Hcn). simpl in Hall.
  rewrite forallb_forall in Hall. specialize (Hall t Hin).
  apply andb_prop in Hall as [Hlt Hsome]. split.
  - now apply Nat.ltb_lt.
  - destruct (h !! t); [eauto|discriminate].
Qed.

Lemma ranked_heap_closed (h : gmap node_id (node U)) (rank : node_id -> nat) :
  ranked_heap h rank = true -> heap_closed h.
Proof. intros H c t Hedge. now apply (ranked_heap_edge h rank H c t). Qed.

Lemma ranked_heap_acyclic (h : gmap node_id (node U)) (rank : node_id -> nat) :
  ranked_heap h rank = true -> forall c, acyclic_from h c.
Proof.
  intros H c. unfold acyclic_from.
  induction c as [c IH] using (well_founded_induction (well_founded_ltof _ rank)).
  constructor. intros t Hedge. apply IH. unfold ltof.
  now apply (ranked_heap_edge h rank H c t).
Qed.

End Termination.

(** ** The statements at the sample graphs *)

Module SampleRuns.

Import Sample.

(** Scenario 1: the chain runs its three units in order and returns
    the action of the last one. *)
Example scenario_linear_chain :
  result_of (_run 4 0%nat w_chain) = Some (inr (Some "done")) /\
  (shared <$> world_after (_run 4 0%nat w_chain))
    = Some [("a", VStr "ok"); ("b", VStr "ok"); ("c", VStr "ok")].
Proof. vm_compute. split; reflexivity. Qed.

(** Scenario 4: the unmatched label is the result, after the warning. *)
Example scenario_unmatched_label :
  result_of (_run 4 0%nat w_dead_end) = Some (inr (Some "z")) /\
  (trace <$> world_after (_run 4 0%nat w_dead_end)) =
    Some [EvPrep 0%nat; EvPrep 1%nat; EvExec 1%nat VNone;
          EvPost 1%nat VNone (VStr "ok");
          EvPrint (WarnFlowEnds (Some "z") ["x"; "y"]);
          EvPost 0%nat VNone (VStr "z")].
Proof. vm_compute. split; reflexivity. Qed.

(** Scenario 5: unit 1, then the whole sub-flow, then unit 2. *)
Example scenario_nested_flow :
  result_of (_run 4 0%nat w_nested) = Some (inr (Some "outer")) /\
  (shared <$> world_after (_run 4 0%nat w_nested)) =
    Some [("u1", VStr "ok"); ("s1", VStr "ok"); ("s2", VStr "ok"); ("u2", VStr "ok")].
Proof. vm_compute. split; reflexivity. Qed.

Lemma orch_ends_at_dead_end_witness :
  (exists w1,
     Flow__orch (_run 1) 1 0%nat None (log [EvPrep 0%nat] w_dead_end) =
       Ret (Some "z") (log [EvPrint (WarnFlowEnds (Some "z") ["x"; "y"])] w1) /\
     _run 2 0%nat w_dead_end =
       Ret (Some "z")
         (log [EvPost 0%nat VNone (VStr "z")]
            (log [EvPrint (WarnFlowEnds (Some "z") ["x"; "y"])] w1))) /\
  (exists w1,
     Flow__orch (_run 1) 1 0%nat None (log [EvPrep 0%nat] MoreSamples.w_lone) =
       Ret (Some "done") w1 /\
     _run 2 0%nat MoreSamples.w_lone =
       Ret (Some "done") (log [EvPost 0%nat VNone (VStr "done")] w1)).
Proof.
  split.
  - epose proof (orch_ends_at_dead_end 1 0 w_dead_end
                   (log [EvPrep 0%nat] w_dead_end) _ _
                   0%nat 1%nat 1%nat n_dead_end_flow _ None _
                   ltac:(vm_compute; reflexivity) eq_refl eq_refl eq_refl
                   eq_refl
                   ltac:(vm_compute; reflexivity)
                   ltac:(vm_compute; reflexivity)
                   ltac:(vm_compute; reflexivity)) as [Hwarn _].
    destruct Hwarn as (_ & Horch & Hrun);
      [reflexivity|reflexivity|discriminate|reflexivity|].
    eexists. split; [exact Horch|exact Hrun].
  - epose proof (orch_ends_at_dead_end 1 0 MoreSamples.w_lone
                   (log [EvPrep 0%nat] MoreSamples.w_lone) _ _
                   0%nat 1%nat 1%nat MoreSamples.n_lone_flow _ None _
                   ltac:(vm_compute; reflexivity) eq_refl eq_refl eq_refl
                   eq_refl
                   ltac:(vm_compute; reflexivity)
                   ltac:(vm_compute; reflexivity)
                   ltac:(vm_compute; reflexivity)) as [_ Hsilent].
    destruct Hsilent as (_ & Horch & Hrun); [reflexivity|].
    eexists. split; [exact Horch|exact Hrun].
Defined.

(** The claim C4 as first stated fails for an exception that is not an
    instance of [Exception]: with [max_retries = 3] and an [exec] that
    raises [KeyboardInterrupt] on every call, [Node._exec] raises it
    after a single call of [exec] and does not call the fallback. *)
Lemma Node_exec_interrupt_not_retried :
  heap MoreSamples.w_interrupt !! 1%nat = Some MoreSamples.n_interrupt /\
  kind MoreSamples.n_interrupt = KNode 3 (1 # 2) /\
  (forall ps p st, exists e st',
     exec MoreSamples.n_interrupt ps p st = (inl e, st')) /\
  exists w',
    _exec 1%nat (VInt 5) MoreSamples.w_interrupt = Raise KeyboardInterrupt w' /\
    trace w' = [EvExec 1%nat (VInt 5)] /\
    exec_calls (trace w') = 1%nat /\
    exec_calls (trace w') <> 3%nat /\
    fallback_calls (trace w') = 0%nat.
Proof.
  split; [vm_compute; reflexivity|]. split; [reflexivity|].
  split; [intros ps p st; eexists _, _; reflexivity|].
  eexists. split; [vm_compute; reflexivity|].
  simpl. repeat split. discriminate.
Qed.

Lemma Node_exec_retries_witness :
  (exists evs w',
     exec_calls evs = 3%nat /\ fallback_calls evs = 0%nat /\
     _exec 1%nat (VInt 5) w_fail3 = Raise (Exn "RuntimeError" "boom") w') /\
  (exists evs w',
     exec_calls evs = 3%nat /\ fallback_calls evs = 0%nat /\
     _exec 1%nat (VInt 5) w_flaky3 = Ret (VStr "success") w').
Proof.
  split.
  - destruct (Node_exec_retries w_fail3 1%nat n_fail3 3 0 (VInt 5)
                ltac:(vm_compute; reflexivity) eq_refl ltac:(lia))
      as [Hexhausted _].
    destruct Hexhausted as (e & evs & He & Hce & Hcf & _ & Hraise).
    + intros m _. eexists. split; reflexivity.
    + vm_compute in He. injection He as <-.
      exists evs. eexists. split; [exact Hce|]. split; [exact Hcf|].
      apply Hraise. reflexivity.
  - destruct (Node_exec_retries w_flaky3 1%nat n_flaky3 3 0 (VInt 5)
                ltac:(vm_compute; reflexivity) eq_refl ltac:(lia))
      as [_ Hsuccess].
    destruct (Hsuccess 3%nat (VStr "success")) as (evs & Hce & Hcf & Hret).
    + vm_compute. lia.
    + intros [|[|m]] Hm; [eexists; split; reflexivity..|]. simpl in Hm. lia.
    + reflexivity.
    + exists evs. eexists. split; [exact Hce|]. split; [exact Hcf|]. exact Hret.
Defined.

Lemma Node_exec_zero_retries_witness :
  _exec 1%nat (VInt 5) w_zero = Ret VNone w_zero.
Proof.
  apply (Node_exec_zero_retries w_zero 1%nat n_zero 0 (VInt 5)).
  - vm_compute. reflexivity.
  - reflexivity.
Defined.

Lemma Flow_without_start_raises_witness :
  _run 1 0%nat w_unset =
    Raise (ValueError "Start node not set") (log [EvPrep 0%nat] w_unset) /\
  shared (log [EvPrep 0%nat] w_unset) = shared w_unset.
Proof.
  destruct (Flow_without_start_raises w_unset 0%nat n_unset
              ltac:(vm_compute; reflexivity) eq_refl) as (_ & _ & Hdefault).
  split; [apply Hdefault|]; reflexivity.
Defined.

Lemma Flow_run_passes_through_witness :
  exists w1, _run 3 10%nat w_nested = Ret (Some "inner") w1.
Proof.
  destruct (Flow_run_passes_through w_nested 10%nat n_sub (Some 11%nat) 2
              ltac:(vm_compute; reflexivity) eq_refl eq_refl eq_refl)
    as (_ & Hret & _).
  eexists. apply Hret. vm_compute. reflexivity.
Defined.

Lemma orch_overwrites_params_witness :
  exists w0 n0,
    BaseNode_set_params 10%nat [("k", VInt 1)] w_nested = Ret tt w0 /\
    heap w0 !! 10%nat = Some n0 /\
    params n0 = [("k", VInt 1)] /\
    PyDict.get "stale" (params n0) = None.
Proof.
  destruct (orch_overwrites_params w_nested 0%nat 10%nat n_outer n_sub 1%nat
              (_run 3) 3 [("k", VInt 1)] None
              ltac:(vm_compute; reflexivity) eq_refl
              ltac:(vm_compute; reflexivity))
    as (_ & w0 & n0 & Hset & Hn0 & Hp & _ & Hgone & _).
  exists w0, n0. repeat split; try assumption.
  apply Hgone; reflexivity.
Defined.

Lemma acyclic_run_terminates_witness :
  exists N, forall fuel, (N <= fuel)%nat -> terminates (_run fuel 0%nat w_nested).
Proof.
  apply (acyclic_run_terminates w_nested 0%nat).
  - apply (ranked_heap_closed _ rank_nested). vm_compute. reflexivity.
  - vm_compute. eauto.
  - apply (ranked_heap_acyclic _ rank_nested). vm_compute. reflexivity.
Defined.

End SampleRuns.

(** * Further properties of the code *)

(** ** The shared context *)

Module SharedStateFacts.

(** X1. Writing a key and reading it back gives the written value,
    through [get] and through [__getitem__]; the key is then a member,
    every other key reads as before, and the keys stay distinct. *)
Theorem set_then_get (key : string) (v default : value) (data : PyDict.t value) :
  SharedState.get key default (SharedState.set key v data) = v /\
  SharedState.getitem key (SharedState.setitem key v data) = inr v /\
  SharedState.contains key (SharedState.set key v data) = true /\
  (forall other, other <> key ->
     SharedState.get other default (SharedState.set key v data)
       = SharedState.get other default data /\
     SharedState.contains other (SharedState.set key v data)
       = SharedState.contains other data) /\
  (PyDict.wf data -> PyDict.wf (SharedState.set key v data)).
Proof.
  unfold SharedState.get, SharedState.getitem, SharedState.contains,
    SharedState.set, SharedState.setitem, PyDict.contains.
  rewrite PyDictFacts.get_set_eq.
  repeat split; try reflexivity.
  - now rewrite PyDictFacts.get_set_ne.
  - now rewrite PyDictFacts.get_set_ne.
  - apply PyDictFacts.wf_set.
Qed.

(** X2. [__getitem__] raises [KeyError] with the key exactly when the
    key is not a member; for a member it returns the value [get]
    returns, whatever default [get] is given.  For a key that is not a
    member [get] returns its default. *)
Theorem getitem_missing_key (key : string) (data : PyDict.t value) :
  (SharedState.getitem key data = inl (KeyError key) <->
   SharedState.contains key data = false) /\
  (SharedState.contains key data = true ->
   forall default,
     SharedState.getitem key data = inr (SharedState.get key default data)) /\
  (SharedState.contains key data = false ->
   forall default, SharedState.get key default data = default).
Proof.
  unfold SharedState.getitem, SharedState.get, SharedState.contains,
    PyDict.contains.
  destruct (PyDict.get key data) as [v|]; repeat split;
    intros; try reflexivity; discriminate.
Qed.

Lemma get_update (key : string) (updates data : PyDict.t value) :
  PyDict.wf updates ->
  PyDict.get key (SharedState.update updates data) =
  match PyDict.get key updates with
  | Some v => Some v
  | None => PyDict.get key data
  end.
Proof.
  unfold SharedState.update, PyDict.wf.
  revert data. induction updates as [|[k0 v0] updates IH]; intros data Hwf;
    [reflexivity|].
  simpl in *. apply NoDup_cons in Hwf as [Hnotin Hwf].
  rewrite (IH _ Hwf).
  destruct (String.eqb_spec key k0) as [->|Hne].
  - assert (Hnone : PyDict.get k0 updates = None).
    { apply PyDictFacts.get_None_not_key. intros Hin. apply Hnotin.
      now apply list_elem_of_In. }
    now rewrite Hnone, PyDictFacts.get_set_eq.
  - destruct (PyDict.get key updates); [reflexivity|].
    now apply PyDictFacts.get_set_ne.
Qed.

Lemma wf_update (updates data : PyDict.t value) :
  PyDict.wf data -> PyDict.wf (SharedState.update updates data).
Proof.
  unfold SharedState.update. revert data.
  induction updates as [|[k0 v0] updates IH]; intros data Hwf; [exact Hwf|].
  simpl. apply IH. now apply PyDictFacts.wf_set.
Qed.

(** X3. After [update] with a dictionary of updates, a key of the
    updates reads as its updated value and every other key reads as
    before; the keys of the context stay distinct, and updating with an
    empty dictionary changes nothing. *)
Theorem update_merges (updates data : PyDict.t value) (key : string) (default : value) :
  PyDict.wf updates ->
  SharedState.get key default (SharedState.update updates data) =
    (if SharedState.contains key updates
     then SharedState.get key default updates
     else SharedState.get key default data) /\
  (PyDict.wf data -> PyDict.wf (SharedState.update updates data)) /\
  SharedState.update PyDict.empty data = data.
Proof.
  intros Hwf. split; [|split; [apply wf_update|reflexivity]].
  unfold SharedState.get, SharedState.contains, PyDict.contains.
  rewrite (get_update key updates data Hwf).
  now destruct (PyDict.get key updates).
Qed.

Lemma update_merges_witness :
  SharedState.get "b" VNone
    (SharedState.update [("b", VInt 2); ("c", VInt 3)] [("a", VInt 0); ("b", VInt 1)])
  = VInt 2.
Proof.
  destruct (update_merges [("b", VInt 2); ("c", VInt 3)]
              [("a", VInt 0); ("b", VInt 1)] "b" VNone) as [Hget _].
  - vm_compute. repeat constructor; intros H; inversion H; subst;
      match goal with H' : _ ∈ _ |- _ => inversion H' end.
  - exact Hget.
Defined.

End SharedStateFacts.

(** ** More on routing and edge registration *)

Section MoreRouting.

Context {U : Type}.

Local Abbreviation world := (world U).

(** X4. Rule (c): when no edge carries the captured label (a null label
    standing for "default") and the unit has an edge labelled
    "default", [Flow.get_next_node] returns the target of that edge and
    prints nothing, however many edges the unit has. *)
Theorem get_next_node_default_fallback (w : world) (c : node_id) (n : node U)
    (act : action) (t : node_id) :
  heap w !! c = Some n ->
  PyDict.get (label_of act) (successors n) = None ->
  PyDict.get "default" (successors n) = Some t ->
  Flow_get_next_node c act w = Ret (Some t) w.
Proof.
  intros Hc Hmiss Hdef. rewrite (Flow_get_next_node_eq w c n act Hc).
  assert (Hres : get_next_node (successors n) act = (Some t, [])).
  { destruct act as [s|]; simpl in Hmiss; [|congruence].
    unfold get_next_node. simpl.
    destruct (String.eqb_spec s "") as [->|Hs]; [now rewrite Hdef|].
    rewrite Hmiss. simpl.
    destruct (PyDict.len (successors n) =? 1)%nat eqn:Hlen.
    - apply Nat.eqb_eq, PyDictFacts.len_one in Hlen as (k & v & Heq).
      rewrite Heq in *.
      change (PyDict.get "default" [(k, v)])
        with (if String.eqb "default" k then Some v else None) in Hdef.
      destruct (String.eqb "default" k); [|discriminate].
      injection Hdef as ->. reflexivity.
    - unfold PyDict.contains. rewrite Hdef. reflexivity. }
  rewrite Hres. simpl. now rewrite log_nil.
Qed.

Lemma get_next_node_some_silent (succ : PyDict.t node_id) act t :
  fst (get_next_node succ act) = Some t -> snd (get_next_node succ act) = [].
Proof.
  unfold get_next_node. simpl. intros H. now rewrite H.
Qed.

(** X5. [Flow.get_next_node] never raises and has three outcomes.  It
    returns the target of one of the unit's own edges and prints
    nothing; or the unit has no edge, and it returns no unit and prints
    nothing; or the unit has two or more edges, none of them labelled
    "default", and it returns no unit after printing the warning with
    the captured label and the list of labels. *)
Theorem get_next_node_outcomes (w : world) (c : node_id) (n : node U) (act : action) :
  heap w !! c = Some n ->
  (exists l t, In (l, t) (successors n) /\
     Flow_get_next_node c act w = Ret (Some t) w) \/
  (successors n = [] /\ Flow_get_next_node c act w = Ret None w) \/
  ((2 <= PyDict.len (successors n))%nat /\
   PyDict.get "default" (successors n) = None /\
   Flow_get_next_node c act w =
     Ret None (log [EvPrint (WarnFlowEnds act (PyDict.keys (successors n)))] w)).
Proof.
  intros Hc. rewrite (Flow_get_next_node_eq w c n act Hc).
  destruct (get_next_node (successors n) act) as [[t|] out] eqn:Hres.
  - left. pose proof (get_next_node_target (successors n) act t) as Ht.
    pose proof (get_next_node_some_silent (successors n) act t) as Hs.
    rewrite Hres in Ht, Hs. simpl in *.
    destruct (Ht eq_refl) as [l Hin]. rewrite (Hs eq_refl). simpl.
    exists l, t. split; [exact Hin|]. now rewrite log_nil.
  - right. destruct (get_next_node_none _ _ _ Hres) as [[Hnil ->]|[Hne ->]].
    + left. split; [exact Hnil|]. simpl. now rewrite log_nil.
    + right. simpl. split; [|split; [|reflexivity]].
      * destruct (successors n) as [|e1 [|e2 rest]] eqn:Hs;
          [congruence| |simpl; lia].
        exfalso. destruct e1 as [k v]. unfold get_next_node in Hres. simpl in Hres.
        destruct (String.eqb (action_or_default act) k); discriminate.
      * destruct (PyDict.get "default" (successors n)) as [t|] eqn:Hdef;
          [|reflexivity].
        exfalso. unfold get_next_node in Hres.
        destruct (PyDict.get (action_or_default act) (successors n)); simpl in Hres;
          [discriminate|].
        destruct (PyDict.len (successors n) =? 1)%nat eqn:Hlen; simpl in Hres.
        -- apply Nat.eqb_eq, PyDictFacts.len_one in Hlen as (k & v & Heq).
           rewrite Heq in Hres. discriminate.
        -- unfold PyDict.contains in Hres. rewrite Hdef in Hres. discriminate.
Qed.

Lemma BaseNode_next_eq (w : world) self n nd act :
  heap w !! self = Some n ->
  BaseNode_next self nd act w =
  Ret nd (with_node
            (log (map EvPrint (snd (next_edge (successors n) nd act))) w)
            self (with_successors n (PyDict.set act nd (successors n)))).
Proof.
  intros Hself. unfold BaseNode_next, bind, get_node. rewrite Hself. reflexivity.
Qed.

(** X6. Registering and then routing.  After [self.next(nd, act)] with a
    label that is not empty, and equally after [self - act >> nd],
    [Flow.get_next_node] on [self] with the captured label [act]
    returns [nd]; after [self >> nd] it returns [nd] for a null, an
    empty and a "default" captured label. *)
Theorem next_then_route (w : world) (self nd : node_id) (n : node U) (act : string) :
  heap w !! self = Some n ->
  (act <> "" ->
   exists w',
     BaseNode_next self nd act w = Ret nd w' /\
     ConditionalTransition_rshift self act nd w = Ret nd w' /\
     Flow_get_next_node self (Some act) w' = Ret (Some nd) w') /\
  (exists w',
     BaseNode_rshift self nd w = Ret nd w' /\
     Flow_get_next_node self None w' = Ret (Some nd) w' /\
     Flow_get_next_node self (Some "") w' = Ret (Some nd) w' /\
     Flow_get_next_node self (Some "default") w' = Ret (Some nd) w').
Proof.
  intros Hself.
  assert (Hroute : forall lbl a,
            action_or_default a = lbl ->
            Flow_get_next_node self a
              (with_node
                 (log (map EvPrint (snd (next_edge (successors n) nd lbl))) w)
                 self (with_successors n (PyDict.set lbl nd (successors n))))
            = Ret (Some nd)
                (with_node
                   (log (map EvPrint (snd (next_edge (successors n) nd lbl))) w)
                   self (with_successors n (PyDict.set lbl nd (successors n))))).
  { intros lbl a Ha.
    erewrite Flow_get_next_node_eq by apply lookup_insert_eq.
    rewrite (get_next_node_hit _ a nd).
    - simpl. now rewrite log_nil.
    - rewrite Ha. apply PyDictFacts.get_set_eq. }
  split.
  - intros Hact. eexists.
    split; [exact (BaseNode_next_eq w self n nd act Hself)|].
    split; [exact (BaseNode_next_eq w self n nd act Hself)|].
    apply Hroute. now apply action_or_default_nonempty.
  - eexists.
    split; [exact (BaseNode_next_eq w self n nd "default" Hself)|].
    repeat split; now apply Hroute.
Qed.

(** X7. Chaining.  [a >> b >> c] on two distinct units [a] and [b]
    returns [c] and leaves [a] with a "default" edge to [b] and [b]
    with a "default" edge to [c]; every other edge of [a] and [b] is
    as before, and the keys of both edge mappings stay distinct. *)
Theorem rshift_chain (w : world) (a b c : node_id) (na nb : node U) :
  a <> b ->
  heap w !! a = Some na ->
  heap w !! b = Some nb ->
  exists w' na' nb',
    (let* t := BaseNode_rshift a b in BaseNode_rshift t c) w = Ret c w' /\
    heap w' !! a = Some na' /\
    heap w' !! b = Some nb' /\
    PyDict.get "default" (successors na') = Some b /\
    PyDict.get "default" (successors nb') = Some c /\
    (forall l, l <> "default" ->
       PyDict.get l (successors na') = PyDict.get l (successors na) /\
       PyDict.get l (successors nb') = PyDict.get l (successors nb)) /\
    (PyDict.wf (successors na) -> PyDict.wf (successors na')) /\
    (PyDict.wf (successors nb) -> PyDict.wf (successors nb')).
Proof.
  intros Hab Ha Hb.
  unfold bind, BaseNode_rshift. rewrite (BaseNode_next_eq w a na b "default" Ha).
  erewrite BaseNode_next_eq; [|simpl; rewrite lookup_insert_ne by exact Hab; exact Hb].
  eexists _, _, _. split; [reflexivity|]. simpl.
  split; [rewrite lookup_insert_ne by congruence; apply lookup_insert_eq|].
  split; [apply lookup_insert_eq|]. simpl.
  split; [apply PyDictFacts.get_set_eq|].
  split; [apply PyDictFacts.get_set_eq|].
  split; [intros l Hl; split; now apply PyDictFacts.get_set_ne|].
  split; apply PyDictFacts.wf_set.
Qed.

End MoreRouting.

(** ** More on retrying units *)

Section MoreRetry.

Context {U : Type}.

Local Abbreviation world := (world U).

Lemma _exec_Node_eq (w : world) self n N wait p :
  heap w !! self = Some n -> kind n = KNode N wait ->
  _exec self p w = Node__exec_loop self p N wait (range N) w.
Proof.
  intros Hn Hk. unfold _exec, bind, get_node. rewrite Hn, Hk. reflexivity.
Qed.

(** The run of [Node._exec] when each of its [N] attempts fails with an
    instance of [Exception]. *)
Lemma Node__exec_exhausted (w : world) self n N wait p :
  heap w !! self = Some n ->
  kind n = KNode N wait ->
  (1 <= N)%Z ->
  (forall m, (m < Z.to_nat N)%nat ->
     exists e, fst (exec n (params n) p
                      (after_calls (exec n (params n) p) m (shared w, user w)))
               = inl e /\ exn_is_Exception e = true) ->
  exists e,
    fst (exec n (params n) p
           (after_calls (exec n (params n) p) (Z.to_nat N - 1) (shared w, user w)))
      = inl e /\
    exn_is_Exception e = true /\
    _exec self p w =
      call (exec_fallback n (params n) p e)
        (log [EvFallback self p e]
           (log (failed_attempts self p wait (Z.to_nat N - 1) ++ [EvExec self p])
              (with_ustate w
                 (after_calls (exec n (params n) p) (Z.to_nat N)
                    (shared w, user w))))).
Proof.
  intros Hn Hk HN Hfail.
  destruct (Hfail (Z.to_nat N - 1)%nat ltac:(lia)) as (e & He & Hexc).
  exists e. split; [exact He|]. split; [exact Hexc|].
  rewrite (_exec_Node_eq w self n N wait p Hn Hk), (range_snoc N HN).
  rewrite (Node__exec_loop_failures self n p N wait _ 0%nat _ w Hn).
  - simpl. unfold try_except.
    rewrite (call_exec_eq _ self n p) by exact Hn.
    rewrite call_eq. simpl. rewrite <- surjective_pairing, He, Hexc.
    rewrite Z.eqb_refl.
    rewrite (call_exec_fallback_eq _ self n p e) by exact Hn.
    f_equal. f_equal.
    rewrite <- after_calls_snoc.
    replace (S (Z.to_nat N - 1)) with (Z.to_nat N) by lia.
    unfold log, with_ustate, after_attempts. simpl.
    now rewrite <- app_assoc.
  - intros m Hm. apply Hfail. lia.
  - lia.
Qed.

(** The run of [Node._exec] when its [k]-th attempt is the first that
    does not raise an instance of [Exception]: it returns, or it raises
    something else, which is not caught. *)
Lemma Node__exec_kth_attempt (w : world) self n N wait p (k : nat) :
  heap w !! self = Some n ->
  kind n = KNode N wait ->
  (1 <= k <= Z.to_nat N)%nat ->
  (forall m, (m < k - 1)%nat ->
     exists e, fst (exec n (params n) p
                      (after_calls (exec n (params n) p) m (shared w, user w)))
               = inl e /\ exn_is_Exception e = true) ->
  let w' := log (failed_attempts self p wait (k - 1) ++ [EvExec self p])
              (with_ustate w
                 (after_calls (exec n (params n) p) k (shared w, user w))) in
  (forall v,
     fst (exec n (params n) p
            (after_calls (exec n (params n) p) (k - 1) (shared w, user w))) = inr v ->
     _exec self p w = Ret v w') /\
  (forall e,
     fst (exec n (params n) p
            (after_calls (exec n (params n) p) (k - 1) (shared w, user w))) = inl e ->
     exn_is_Exception e = false ->
     _exec self p w = Raise e w').
Proof.
  intros Hn Hk Hk1 Hfail w'.
  assert (Hloop : _exec self p w =
                  Node__exec_loop self p N wait
                    (map Z.of_nat (seq (0 + (k - 1)) (S (Z.to_nat N - k))))
                    (after_attempts self p wait (exec n (params n) p) (k - 1) w)).
  { rewrite (_exec_Node_eq w self n N wait p Hn Hk). unfold range.
    replace (Z.to_nat N) with ((k - 1) + S (Z.to_nat N - k))%nat at 1 by lia.
    rewrite seq_app, map_app.
    apply (Node__exec_loop_failures self n p N wait _ 0%nat _ w Hn);
      [exact Hfail|lia]. }
  assert (Hw' : with_ustate
                  (log [EvExec self p]
                     (after_attempts self p wait (exec n (params n) p) (k - 1) w))
                  (snd (exec n (params n) p
                          (after_calls (exec n (params n) p) (k - 1)
                             (shared w, user w))))
                = w').
  { subst w'. rewrite <- after_calls_snoc.
    replace (S (k - 1)) with k by lia.
    unfold log, with_ustate, after_attempts. simpl.
    now rewrite <- app_assoc. }
  split.
  - intros v Hok. rewrite Hloop. simpl. unfold try_except.
    rewrite (call_exec_eq _ self n p) by exact Hn.
    rewrite call_eq. simpl. rewrite <- surjective_pairing, Hok.
    now rewrite Hw'.
  - intros e He Hexc. rewrite Hloop. simpl. unfold try_except.
    rewrite (call_exec_eq _ self n p) by exact Hn.
    rewrite call_eq. simpl. rewrite <- surjective_pairing, He, Hexc.
    now rewrite Hw'.
Qed.

Lemma sleep_calls_failed_attempts self p wait k :
  sleep_calls (failed_attempts self p wait k ++ [EvExec self p]) =
  if negb (Qle_bool wait 0) then k else 0%nat.
Proof.
  unfold sleep_calls. rewrite List.filter_app, length_app. simpl.
  rewrite Nat.add_0_r.
  induction k as [|k IH]; simpl.
  - now destruct (negb (Qle_bool wait 0)).
  - destruct (negb (Qle_bool wait 0)); simpl in *; congruence.
Qed.

(** X8. A retrying unit whose [max_retries] is zero or negative:
    [Node._exec] returns [None] and leaves the world as it was, so it
    calls neither [exec] nor [exec_fallback] and does not sleep. *)
Theorem Node_exec_no_attempts (w : world) (self : node_id) (n : node U)
    (N : Z) (wait : Q) (p : value) :
  heap w !! self = Some n ->
  kind n = KNode N wait ->
  (N <= 0)%Z ->
  _exec self p w = Ret VNone w.
Proof.
  intros Hn Hk HN. rewrite (_exec_Node_eq w self n N wait p Hn Hk).
  unfold range. replace (Z.to_nat N) with 0%nat by lia. reflexivity.
Qed.

(** X9. Sleeping between attempts.  With a positive [wait],
    [Node._exec] sleeps once after each attempt that failed with an
    instance of [Exception], except the last attempt it is allowed:
    [N - 1] times when all [N] attempts fail so, [k - 1] times when the
    [k]-th attempt succeeds after [k - 1] such failures; in both cases
    the last event before the fallback or the return is the call of
    [exec].  With a [wait] that is zero or negative it never sleeps. *)
Theorem Node_exec_sleeps (w : world) (self : node_id) (n : node U)
    (N : Z) (wait : Q) (p : value) :
  heap w !! self = Some n ->
  kind n = KNode N wait ->
  (1 <= N)%Z ->
  let f := exec n (params n) p in
  let st0 := (shared w, user w) in
  ((forall m, (m < Z.to_nat N)%nat ->
      exists e, fst (f (after_calls f m st0)) = inl e /\
                exn_is_Exception e = true) ->
   exists e evs,
     sleep_calls (evs ++ [EvExec self p]) =
       (if negb (Qle_bool wait 0) then (Z.to_nat N - 1)%nat else 0%nat) /\
     _exec self p w =
       call (exec_fallback n (params n) p e)
         (log [EvFallback self p e]
            (log (evs ++ [EvExec self p])
               (with_ustate w (after_calls f (Z.to_nat N) st0)))))
  /\
  (forall (k : nat) (v : value),
     (1 <= k <= Z.to_nat N)%nat ->
     (forall m, (m < k - 1)%nat ->
        exists e, fst (f (after_calls f m st0)) = inl e /\
                  exn_is_Exception e = true) ->
     fst (f (after_calls f (k - 1) st0)) = inr v ->
     exists evs,
       sleep_calls (evs ++ [EvExec self p]) =
         (if negb (Qle_bool wait 0) then (k - 1)%nat else 0%nat) /\
       _exec self p w =
         Ret v (log (evs ++ [EvExec self p])
                  (with_ustate w (after_calls f k st0)))).
Proof.
  intros Hn Hk HN f st0. subst f st0. split.
  - intros Hfail.
    destruct (Node__exec_exhausted w self n N wait p Hn Hk HN Hfail)
      as (e & _ & _ & Hrun).
    exists e, (failed_attempts self p wait (Z.to_nat N - 1)).
    split; [apply sleep_calls_failed_attempts|exact Hrun].
  - intros k v Hk1 Hfail Hok.
    exists (failed_attempts self p wait (k - 1)).
    split; [apply sleep_calls_failed_attempts|].
    now apply (Node__exec_kth_attempt w self n N wait p k Hn Hk Hk1 Hfail).
Qed.

(** X10. The fallback converts the failure into a result.  When each of
    the [N >= 1] attempts fails with an instance of [Exception] and
    [exec_fallback], called with the prepared input and the last
    exception, returns [v], [Node._exec] returns [v]: after [N] calls
    of [exec] and one of the fallback, in the state the fallback
    leaves. *)
Theorem Node_exec_fallback_result (w : world) (self : node_id) (n : node U)
    (N : Z) (wait : Q) (p : value) :
  heap w !! self = Some n ->
  kind n = KNode N wait ->
  (1 <= N)%Z ->
  let f := exec n (params n) p in
  let st0 := (shared w, user w) in
  (forall m, (m < Z.to_nat N)%nat ->
     exists e, fst (f (after_calls f m st0)) = inl e /\
               exn_is_Exception e = true) ->
  exists e evs,
    fst (f (after_calls f (Z.to_nat N - 1) st0)) = inl e /\
    exec_calls evs = Z.to_nat N /\ fallback_calls evs = 1%nat /\
    forall v,
      fst (exec_fallback n (params n) p e (after_calls f (Z.to_nat N) st0)) = inr v ->
      _exec self p w =
        Ret v (log evs
                 (with_ustate w
                    (snd (exec_fallback n (params n) p e
                            (after_calls f (Z.to_nat N) st0))))).
Proof.
  intros Hn Hk HN f st0 Hfail. subst f st0.
  destruct (Node__exec_exhausted w self n N wait p Hn Hk HN Hfail)
    as (e & He & _ & Hrun).
  exists e, ((failed_attempts self p wait (Z.to_nat N - 1) ++ [EvExec self p])
             ++ [EvFallback self p e]).
  split; [exact He|].
  destruct (exec_calls_attempts self p wait (Z.to_nat N - 1)) as [Hce Hcf].
  split; [|split].
  - unfold exec_calls in *. rewrite List.filter_app, length_app, Hce. simpl. lia.
  - unfold fallback_calls in *. rewrite List.filter_app, length_app, Hcf. reflexivity.
  - intros v Hv. rewrite Hrun, call_eq. simpl.
    rewrite <- surjective_pairing, Hv.
    f_equal. unfold log, with_ustate. simpl. now rewrite <- app_assoc.
Qed.

(** X11. A retrying unit whose [exec] raises nothing but instances of
    [Exception] and whose [exec_fallback] never raises never fails in
    [Node._exec], whatever [max_retries] is: [Node._exec] returns a
    result. *)
Theorem Node_exec_total_with_fallback (w : world) (self : node_id) (n : node U)
    (N : Z) (wait : Q) (p : value) :
  heap w !! self = Some n ->
  kind n = KNode N wait ->
  (forall st e, fst (exec n (params n) p st) = inl e ->
                exn_is_Exception e = true) ->
  (forall e, never_raises (exec_fallback n (params n) p e)) ->
  exists v w', _exec self p w = Ret v w'.
Proof.
  intros Hn Hk Hexc Hfb. rewrite (_exec_Node_eq w self n N wait p Hn Hk).
  generalize (range N) as retries. intros retries. revert w Hn.
  induction retries as [|retry rest IH]; intros w Hn; [simpl; eauto|].
  simpl. unfold try_except.
  rewrite (call_exec_eq w self n p Hn), call_eq.
  destruct (fst (exec n (params n) p _)) as [e|v] eqn:He; [|eauto].
  rewrite (Hexc _ e He).
  destruct (retry =? N - 1)%Z.
  - erewrite call_exec_fallback_eq by exact Hn. rewrite call_eq.
    match goal with
    | |- context [fst (exec_fallback n (params n) p e ?st)] =>
        destruct (Hfb e st) as [v Hv]; rewrite Hv
    end.
    eauto.
  - unfold bind. rewrite wait_between_attempts_eq. apply IH. exact Hn.
Qed.

(** X22. An exception that is not an instance of [Exception] is not
    retried.  When the first [k - 1] attempts fail with instances of
    [Exception] and the [k]-th call of [exec], for some [k <= N],
    raises an exception that is none ([KeyboardInterrupt],
    [SystemExit]), [Node._exec] raises that exception at once: after
    exactly [k] calls of [exec], with no call of [exec_fallback], no
    further attempt and no sleep after the call. *)
Theorem Node_exec_uncaught (w : world) (self : node_id) (n : node U)
    (N : Z) (wait : Q) (p : value) (k : nat) (e : exn) :
  heap w !! self = Some n ->
  kind n = KNode N wait ->
  (1 <= k <= Z.to_nat N)%nat ->
  let f := exec n (params n) p in
  let st0 := (shared w, user w) in
  (forall m, (m < k - 1)%nat ->
     exists e', fst (f (after_calls f m st0)) = inl e' /\
                exn_is_Exception e' = true) ->
  fst (f (after_calls f (k - 1) st0)) = inl e ->
  exn_is_Exception e = false ->
  exists evs,
    exec_calls (evs ++ [EvExec self p]) = k /\
    fallback_calls (evs ++ [EvExec self p]) = 0%nat /\
    sleep_calls (evs ++ [EvExec self p]) =
      (if negb (Qle_bool wait 0) then (k - 1)%nat else 0%nat) /\
    _exec self p w =
      Raise e (log (evs ++ [EvExec self p])
                 (with_ustate w (after_calls f k st0))).
Proof.
  intros Hn Hk Hk1 f st0 Hfail He Hexc. subst f st0.
  exists (failed_attempts self p wait (k - 1)).
  destruct (exec_calls_attempts self p wait (k - 1)) as [Hce Hcf].
  split; [rewrite Hce; lia|]. split; [exact Hcf|].
  split; [apply sleep_calls_failed_attempts|].
  now apply (Node__exec_kth_attempt w self n N wait p k Hn Hk Hk1 Hfail).
Qed.

End MoreRetry.

(** ** More on flows *)

Section MoreFlows.

Context {U : Type}.

Local Abbreviation world := (world U).
Local Abbreviation M := (M U).

(** X12. The parameters [Flow._orch] hands to its loop.  An explicit
    mapping that is not empty is used as it is, in place of the flow's
    own; an explicit empty mapping counts as none, and the flow's own
    mapping is used. *)
Theorem Flow_orch_explicit_params (w : world) (f : node_id) (n : node U)
    (s : node_id) (R : node_id -> M action) (k : nat) :
  heap w !! f = Some n ->
  kind n = KFlow (Some s) ->
  (forall p, p <> [] ->
     Flow__orch R k f (Some p) w = orch_while R k (Some s) p None w) /\
  Flow__orch R k f (Some []) w = orch_while R k (Some s) (params n) None w /\
  Flow__orch R k f (Some []) w = Flow__orch R k f None w.
Proof.
  intros Hf Hk. unfold Flow__orch, bind, get_node. rewrite Hf, Hk.
  split; [|split; reflexivity].
  intros [|kv p] Hp; [congruence|reflexivity].
Qed.

(** X13. [Flow.start] returns the unit it is given and makes it the
    start unit, whatever the start unit was before; the flow keeps its
    parameters, edges and methods, every other object is untouched,
    and [Flow._orch] then enters its loop at that unit instead of
    raising. *)
Theorem Flow_start_sets_start (w : world) (f : node_id) (n : node U)
    (s0 : option node_id) (s : node_id) (R : node_id -> M action) (k : nat) :
  heap w !! f = Some n ->
  kind n = KFlow s0 ->
  exists w' n',
    Flow_start f s w = Ret s w' /\
    heap w' !! f = Some n' /\
    kind n' = KFlow (Some s) /\
    params n' = params n /\ successors n' = successors n /\
    prep n' = prep n /\ post n' = post n /\
    (forall c, c <> f -> heap w' !! c = heap w !! c) /\
    shared w' = shared w /\ user w' = user w /\ trace w' = trace w /\
    Flow__orch R k f None w' = orch_while R k (Some s) (params n) None w'.
Proof.
  intros Hf Hk. unfold Flow_start, bind, get_node, put_node, ret. rewrite Hf.
  eexists _, _. split; [reflexivity|]. simpl.
  split; [apply lookup_insert_eq|]. simpl.
  do 5 (split; [reflexivity|]).
  split; [intros c Hc; now apply lookup_insert_ne|].
  do 3 (split; [reflexivity|]).
  unfold Flow__orch, bind, get_node. simpl. rewrite lookup_insert_eq. reflexivity.
Qed.

(** X14. A sub-flow hands on the parameters of the outer flow.  When
    the current unit of a loop that carries the mapping [p] is a flow
    with the [prep] of [Flow], the loop of that sub-flow carries [p] as
    well, not the mapping the sub-flow held before; the outer loop then
    goes on from the action the sub-flow's [post] returns. *)
Theorem nested_flow_inherits_params (w : world) (f' : node_id) (n' : node U)
    (s' : node_id) (p : PyDict.t value) (la : action) (fuel k : nat) :
  heap w !! f' = Some n' ->
  kind n' = KFlow (Some s') ->
  prep n' = Flow_prep ->
  orch_while (_run (S fuel)) (S k) (Some f') p la w =
  (let* r := orch_while (_run fuel) fuel (Some s') p None in
   let* a := call_post f' VNone (value_of_action r) in
   let* nxt := Flow_get_next_node f' a in
   orch_while (_run (S fuel)) k nxt p a)
    (log [EvPrep f'] (with_node w f' (with_params n' p))).
Proof.
  intros Hf Hk Hprep.
  rewrite orch_while_step. unfold bind at 1.
  rewrite (set_params_eq w f' n' p Hf).
  assert (Hlook : heap (with_node w f' (with_params n' p)) !! f'
                  = Some (with_params n' p)) by apply lookup_insert_eq.
  unfold bind at 1.
  rewrite (_run_flow_eq _ f' (with_params n' p) (Some s') fuel Hlook Hk).
  unfold Flow__run. unfold bind at 1.
  rewrite (call_prep_eq _ f' _ Hlook), call_eq. simpl. rewrite Hprep. simpl.
  unfold bind at 1. unfold Flow__orch at 1. unfold bind at 1, get_node.
  simpl. rewrite lookup_insert_eq. simpl. rewrite Hk.
  unfold with_ustate, log, with_node. simpl.
  unfold bind.
  destruct (orch_while (_run fuel) fuel (Some s') p None _) as [r w2|e w2| |];
    reflexivity.
Qed.

(** X15. A failure aborts the flow.  When the lifecycle of the current
    unit raises, the loop raises the same exception in the same world:
    no routing, no warning, no further unit.  When that unit is the
    start unit of a flow with the [prep] of [Flow], the run of the flow
    raises it too, without calling the flow's [post]. *)
Theorem unit_failure_aborts_flow (w w0 w1 : world) (c : node_id)
    (p : PyDict.t value) (e : exn) (fuel : nat) :
  BaseNode_set_params c p w = Ret tt w0 ->
  _run fuel c w0 = Raise e w1 ->
  (forall k la, orch_while (_run fuel) (S k) (Some c) p la w = Raise e w1) /\
  (forall f nf wf k,
     heap wf !! f = Some nf ->
     kind nf = KFlow (Some c) ->
     prep nf = Flow_prep ->
     p = params nf ->
     w = log [EvPrep f] wf ->
     fuel = S k ->
     _run (S fuel) f wf = Raise e w1).
Proof.
  intros Hset Hrun.
  assert (Hloop : forall k la,
             orch_while (_run fuel) (S k) (Some c) p la w = Raise e w1).
  { intros k la. rewrite orch_while_step. unfold bind at 1. rewrite Hset.
    unfold bind at 1. now rewrite Hrun. }
  split; [exact Hloop|].
  intros f nf wf k Hf Hk Hprep -> -> ->.
  assert (Hprep_run : call_prep f wf = Ret VNone (log [EvPrep f] wf)).
  { rewrite (call_prep_eq wf f nf Hf), call_eq, Hprep. reflexivity. }
  assert (Horch : Flow__orch (_run (S k)) (S k) f None (log [EvPrep f] wf) =
                  orch_while (_run (S k)) (S k) (Some c) (params nf) None
                    (log [EvPrep f] wf)).
  { unfold Flow__orch, bind, get_node.
    change (heap (log [EvPrep f] wf)) with (heap wf).
    rewrite Hf, Hk. reflexivity. }
  rewrite (_run_flow_eq wf f nf (Some c) (S k) Hf Hk).
  unfold Flow__run. unfold bind at 1. rewrite Hprep_run.
  unfold bind at 1. rewrite Horch, Hloop. reflexivity.
Qed.

(** X18. A run never rewires the graph: in the world a run of any unit
    ends in, returning or raising, every object has the edges, the
    class (with its start unit, retry count and wait) and the methods
    it had before, and no object has appeared or gone. *)
Theorem run_keeps_graph (fuel : nat) (c : node_id) (w : world) :
  match _run fuel c w with
  | Ret _ w' | Raise _ w' => same_graph (heap w) (heap w')
  | OutOfFuel | Dangling => True
  end.
Proof. apply (preserves__run fuel c w). Qed.

End MoreFlows.

(** ** Cycles and direct runs *)

Section CyclesAndDirectRuns.

Context {U : Type}.

Local Abbreviation world := (world U).
Local Abbreviation M := (M U).
Local Abbreviation emits_only := (emits_only (U:=U)).

Lemma _exec_returns (w : world) c n p :
  heap w !! c = Some n ->
  (forall ps v, never_raises (exec n ps v)) ->
  exists v w', _exec c p w = Ret v w' /\ heap w' = heap w.
Proof.
  intros Hn Hexec.
  assert (Hcall : exists v w', call_exec c p w = Ret v w' /\ heap w' = heap w).
  { rewrite (call_exec_eq w c n p Hn), call_eq.
    match goal with
    | |- context [fst (exec n (params n) p ?st)] =>
        destruct (Hexec (params n) p st) as [v Hv]; rewrite Hv
    end.
    eexists _, _. split; reflexivity. }
  unfold _exec, bind, get_node. rewrite Hn.
  destruct (kind n) as [|N wait|s]; try exact Hcall.
  unfold Node__exec. destruct (range N) as [|retry rest].
  - exists VNone, w. split; reflexivity.
  - simpl. unfold try_except.
    destruct Hcall as (v & w' & -> & Hh). eauto.
Qed.

Lemma BaseNode__run_returns (w : world) c n :
  heap w !! c = Some n ->
  (forall ps, never_raises (prep n ps)) ->
  (forall ps v, never_raises (exec n ps v)) ->
  (forall ps v r, never_raises (post n ps v r)) ->
  exists a w', BaseNode__run c w = Ret a w' /\ heap w' = heap w.
Proof.
  intros Hn Hprep Hexec Hpost. unfold BaseNode__run.
  unfold bind at 1. rewrite (call_prep_eq w c n Hn), call_eq.
  match goal with
  | |- context [fst (prep n (params n) ?st)] =>
      destruct (Hprep (params n) st) as [p Hp]; rewrite Hp
  end.
  match goal with
  | |- context [bind (_exec c p) _ ?w1] =>
      destruct (_exec_returns w1 c n p Hn Hexec) as (v & w2 & Hrun & Hh)
  end.
  unfold bind at 1. rewrite Hrun.
  assert (Hn2 : heap w2 !! c = Some n) by (rewrite Hh; exact Hn).
  rewrite (call_post_eq w2 c n p v Hn2), call_eq.
  match goal with
  | |- context [fst (post n (params n) p v ?st)] =>
      destruct (Hpost (params n) p v st) as [a Ha]; rewrite Ha
  end.
  eexists _, _. split; [reflexivity|]. simpl. exact Hh.
Qed.

Lemma not_terminates_bind {A B : Type} (m : M A) (k : A -> M B) (w : world) :
  ~ terminates (m w) -> ~ terminates (bind m k w).
Proof. unfold bind. destruct (m w); simpl; tauto. Qed.

(** The loop entered at a unit whose single edge leads back to it, and
    whose methods never raise, uses up any amount of fuel. *)
Lemma self_loop_spins (c : node_id) (n : node U) (l : string) :
  (forall s, kind n <> KFlow s) ->
  successors n = [(l, c)] ->
  (forall ps, never_raises (prep n ps)) ->
  (forall ps v, never_raises (exec n ps v)) ->
  (forall ps v r, never_raises (post n ps v r)) ->
  forall k F p la (w : world),
    (exists m, heap w !! c = Some m /\ same_unit n m) ->
    ~ terminates (orch_while (_run F) k (Some c) p la w).
Proof.
  intros Hkind Hsucc Hprep Hexec Hpost.
  induction k as [|k IH]; intros F p la w (m & Hm & Hsame); [intros []|].
  rewrite orch_while_step. unfold bind at 1. rewrite (set_params_eq w c m p Hm).
  assert (Hlook : heap (with_node w c (with_params m p)) !! c
                  = Some (with_params m p)) by apply lookup_insert_eq.
  destruct Hsame as (Hs & Hk & Hp & He & Hpo & Hfb).
  unfold bind at 1. destruct F as [|F]; [intros []|].
  assert (Hrun : _run (S F) c (with_node w c (with_params m p))
                 = BaseNode__run c (with_node w c (with_params m p))).
  { simpl. unfold bind at 1, get_node. rewrite Hlook. simpl. rewrite <- Hk.
    destruct (kind n) as [| |s] eqn:Hkn; try reflexivity.
    now destruct (Hkind s). }
  rewrite Hrun.
  destruct (BaseNode__run_returns _ c (with_params m p) Hlook)
    as (a & w1 & Hret & Hh).
  - intros ps. simpl. rewrite <- Hp. apply Hprep.
  - intros ps v. simpl. rewrite <- He. apply Hexec.
  - intros ps v r. simpl. rewrite <- Hpo. apply Hpost.
  - rewrite Hret.
    assert (Hn1 : heap w1 !! c = Some (with_params m p)) by (rewrite Hh; exact Hlook).
    unfold bind at 1. rewrite (Flow_get_next_node_eq w1 c _ a Hn1).
    simpl successors. rewrite <- Hs, Hsucc.
    assert (Hnext : get_next_node [(l, c)] a = (Some c, [])).
    { unfold get_next_node. simpl.
      destruct (String.eqb (action_or_default a) l); reflexivity. }
    rewrite Hnext. simpl fst. simpl snd.
    apply IH. exists (with_params m p). split; [exact Hn1|].
    repeat split; assumption.
Qed.

(** X16. No guard against cycles.  A flow whose [prep] never raises and
    whose start unit has a single edge, leading back to that unit, does
    not terminate when that unit's [prep], [exec] and [post] never
    raise: no amount of fuel lets its run return or raise. *)
Theorem self_loop_never_terminates (w : world) (f c : node_id) (nf n : node U)
    (l : string) :
  heap w !! f = Some nf ->
  kind nf = KFlow (Some c) ->
  (forall ps, never_raises (prep nf ps)) ->
  heap w !! c = Some n ->
  (forall s, kind n <> KFlow s) ->
  successors n = [(l, c)] ->
  (forall ps, never_raises (prep n ps)) ->
  (forall ps v, never_raises (exec n ps v)) ->
  (forall ps v r, never_raises (post n ps v r)) ->
  forall fuel, ~ terminates (_run fuel f w).
Proof.
  intros Hf Hkf Hprepf Hc Hkind Hsucc Hprep Hexec Hpost [|fuel]; [intros []|].
  rewrite (_run_flow_eq w f nf (Some c) fuel Hf Hkf).
  unfold Flow__run. unfold bind at 1.
  rewrite (call_prep_eq w f nf Hf), call_eq.
  match goal with
  | |- context [fst (prep nf (params nf) ?st)] =>
      destruct (Hprepf (params nf) st) as [pr Hpr]; rewrite Hpr
  end.
  apply not_terminates_bind.
  unfold Flow__orch, bind, get_node. simpl heap. rewrite Hf, Hkf.
  apply (self_loop_spins c n l Hkind Hsucc Hprep Hexec Hpost).
  exists n. split; [exact Hc|apply same_unit_refl].
Qed.

(** *** Events of a unit's own lifecycle *)

Lemma emits_ret {A : Type} P (a : A) : emits_only P (ret a).
Proof. intros w. exists []. split; [now rewrite app_nil_r|constructor]. Qed.

Lemma emits_raise {A : Type} P (e : exn) : emits_only P (@raise U A e).
Proof. intros w. exists []. split; [now rewrite app_nil_r|constructor]. Qed.

Lemma emits_bind {A B : Type} P (m : M A) (k : A -> M B) :
  emits_only P m -> (forall a, emits_only P (k a)) -> emits_only P (bind m k).
Proof.
  intros Hm Hk w. unfold bind. specialize (Hm w).
  destruct (m w) as [a w'|e w'| |]; try assumption.
  destruct Hm as (evs1 & Ht1 & Hp1). specialize (Hk a w').
  destruct (k a w') as [b w''|e w''| |]; try exact I;
    destruct Hk as (evs2 & Ht2 & Hp2); exists (evs1 ++ evs2);
    (split; [rewrite Ht2, Ht1; now rewrite app_assoc|now apply Forall_app]).
Qed.

Lemma emits_try_except {A : Type} P (m : M A) (h : exn -> M A) :
  emits_only P m -> (forall e, emits_only P (h e)) -> emits_only P (try_except m h).
Proof.
  intros Hm Hh w. unfold try_except. specialize (Hm w).
  destruct (m w) as [a w'|e w'| |]; try assumption.
  destruct (exn_is_Exception e); [|assumption].
  destruct Hm as (evs1 & Ht1 & Hp1). specialize (Hh e w').
  destruct (h e w') as [b w''|e' w''| |]; try exact I;
    destruct Hh as (evs2 & Ht2 & Hp2); exists (evs1 ++ evs2);
    (split; [rewrite Ht2, Ht1; now rewrite app_assoc|now apply Forall_app]).
Qed.

Lemma emits_emit (P : event -> Prop) ev : P ev -> emits_only P (emit ev).
Proof. intros HP w. exists [ev]. split; [reflexivity|]. now constructor. Qed.

Lemma emits_get_node P c : emits_only P (get_node c).
Proof.
  intros w. unfold get_node. destruct (heap w !! c); [|exact I].
  exists []. split; [now rewrite app_nil_r|constructor].
Qed.

Lemma emits_call {A : Type} P (m : umeth U A) : emits_only P (call m).
Proof.
  intros w. rewrite call_eq.
  destruct (fst (m (shared w, user w)));
    (exists []; split; [simpl; now rewrite app_nil_r|constructor]).
Qed.

Lemma emits_Node__exec_loop c p N wait retries :
  emits_only (unit_event c) (Node__exec_loop c p N wait retries).
Proof.
  induction retries as [|retry rest IH]; simpl; [apply emits_ret|].
  apply emits_try_except.
  - unfold call_exec. apply emits_bind; [apply emits_get_node|]. intros n.
    apply emits_bind; [now apply emits_emit|]. intros _. apply emits_call.
  - intros e. destruct (retry =? N - 1)%Z.
    + unfold call_exec_fallback. apply emits_bind; [apply emits_get_node|].
      intros n. apply emits_bind; [now apply emits_emit|]. intros _.
      apply emits_call.
    + apply emits_bind; [|intros _; exact IH].
      unfold wait_between_attempts.
      destruct (negb _); [now apply emits_emit|apply emits_ret].
Qed.

Lemma emits_BaseNode__run c : emits_only (unit_event c) (BaseNode__run c).
Proof.
  assert (Hexec : forall p, emits_only (unit_event c) (call_exec c p)).
  { intros p. unfold call_exec. apply emits_bind; [apply emits_get_node|].
    intros n. apply emits_bind; [now apply emits_emit|]. intros _.
    apply emits_call. }
  unfold BaseNode__run. apply emits_bind.
  - unfold call_prep. apply emits_bind; [apply emits_get_node|]. intros n.
    apply emits_bind; [now apply emits_emit|]. intros _. apply emits_call.
  - intros p. apply emits_bind.
    + unfold _exec. apply emits_bind; [apply emits_get_node|]. intros n.
      destruct (kind n); [apply Hexec|apply emits_Node__exec_loop|apply Hexec].
    + intros r. unfold call_post. apply emits_bind; [apply emits_get_node|].
      intros n. apply emits_bind; [now apply emits_emit|]. intros _.
      apply emits_call.
Qed.

(** X17. Running a unit directly.  [BaseNode.run] on a unit that is not
    a flow always ends, returning or raising.  It prints the misuse
    warning first exactly when the unit has an edge, and every event
    after that belongs to the unit's own lifecycle: no method of a
    successor is called and nothing more is printed. *)
Theorem run_direct_stays_on_unit (w : world) (c : node_id) (n : node U) (fuel : nat) :
  heap w !! c = Some n ->
  (forall s, kind n <> KFlow s) ->
  match run (S fuel) c w with
  | Ret _ w' | Raise _ w' =>
      exists evs,
        trace w' = trace w ++
          map EvPrint (if PyDict.truthy (successors n)
                       then [WarnWontRunSuccessors] else []) ++ evs /\
        Forall (unit_event c) evs
  | OutOfFuel | Dangling => False
  end.
Proof.
  intros Hn Hkind. unfold run. unfold bind at 1, get_node. rewrite Hn.
  unfold bind at 1. rewrite print_all_log.
  set (w1 := log _ w).
  assert (Hn1 : heap w1 !! c = Some n) by exact Hn.
  assert (Hrun : _run (S fuel) c w1 = BaseNode__run c w1).
  { simpl. unfold bind at 1, get_node. rewrite Hn1.
    destruct (kind n) as [| |s] eqn:Hkn; try reflexivity.
    now destruct (Hkind s). }
  rewrite Hrun.
  pose proof (terminates_BaseNode__run c w1 ltac:(eauto)) as Hterm.
  pose proof (emits_BaseNode__run c w1) as Hev.
  destruct (BaseNode__run c w1) as [a w'|e w'| |]; try contradiction;
    destruct Hev as (evs & Ht & HP); exists evs;
    (split; [rewrite Ht; subst w1; simpl; now rewrite <- app_assoc|exact HP]).
Qed.

End CyclesAndDirectRuns.

(** ** Data transformation units *)

Section DataTransformFacts.

Context {U : Type}.

Local Abbreviation world := (world U).
Local Abbreviation M := (M U).

(** The run of a [DataTransformNode], by the outcome of its transform. *)
Lemma DataTransformNode_run_eq (w : world) c n tf ik ok fuel :
  heap w !! c = Some n ->
  is_DataTransformNode tf ik ok n ->
  _run (S fuel) c w =
  let x := SharedState.get ik VNone (shared w) in
  let st' := snd (tf x (shared w, user w)) in
  match fst (tf x (shared w, user w)) with
  | inr v =>
      Ret (Some "default")
        (MkWorld (heap w) (SharedState.setitem ok v (fst st')) (snd st')
           (trace w ++ [EvPrep c; EvExec c x; EvPost c x v]))
  | inl e =>
      Raise e
        (MkWorld (heap w) (fst st') (snd st')
           (trace w ++
            EvPrep c :: EvExec c x ::
            (if exn_is_Exception e then [EvFallback c x e] else [])))
  end.
Proof.
  intros Hn (Hk & Hprep & Hexec & Hpost & Hfb).
  assert (Hrun : _run (S fuel) c w = BaseNode__run c w).
  { simpl. unfold bind at 1, get_node. rewrite Hn, Hk. reflexivity. }
  rewrite Hrun. unfold BaseNode__run.
  unfold bind at 1. rewrite (call_prep_eq w c n Hn), call_eq, Hprep.
  unfold DataTransformNode_prep. cbn [fst snd].
  set (x := SharedState.get ik VNone (shared (log [EvPrep c] w))).
  set (w1 := with_ustate _ _).
  assert (Hn1 : heap w1 !! c = Some n) by exact Hn.
  unfold bind at 1.
  rewrite (_exec_Node_eq w1 c n 1 0 x Hn1 Hk).
  change (range 1) with [0%Z].
  cbn [Node__exec_loop]. unfold try_except.
  rewrite (call_exec_eq w1 c n x Hn1), call_eq, Hexec.
  unfold DataTransformNode_exec.
  change (shared (log [EvExec c x] w1), user (log [EvExec c x] w1))
    with (shared w, user w).
  change x with (SharedState.get ik VNone (shared w)).
  cbv zeta.
  destruct (fst (tf (SharedState.get ik VNone (shared w)) (shared w, user w)))
    as [e|v].
  - destruct (exn_is_Exception e).
    + change (0 =? 1 - 1)%Z with true. cbv iota.
      erewrite call_exec_fallback_eq by exact Hn.
      rewrite call_eq, Hfb. unfold Node_exec_fallback. cbn [fst snd].
      f_equal. unfold log, with_ustate, w1, log, with_ustate. cbn.
      now rewrite <- !app_assoc.
    + unfold bind. f_equal. unfold log, with_ustate, w1, log, with_ustate. cbn.
      now rewrite <- !app_assoc.
  - erewrite call_post_eq by exact Hn.
    rewrite call_eq, Hpost. unfold DataTransformNode_post. cbn [fst snd].
    f_equal. unfold log, with_ustate, w1, log, with_ustate. cbn.
    now rewrite <- !app_assoc.
Qed.

(** X19. A [DataTransformNode] whose transform returns.  Its run calls
    the transform exactly once, on the value stored under the input key
    or on [None] when that key is absent, stores the result under the
    output key and returns the action "default"; the rest of the shared
    context is what the transform left. *)
Theorem DataTransformNode_run_stores (w : world) (c : node_id) (n : node U)
    (tf : value -> umeth U value) (ik ok : string) (fuel : nat) (v : value) :
  heap w !! c = Some n ->
  is_DataTransformNode tf ik ok n ->
  let x := SharedState.get ik VNone (shared w) in
  fst (tf x (shared w, user w)) = inr v ->
  (SharedState.contains ik (shared w) = false -> x = VNone) /\
  exists w',
    _run (S fuel) c w = Ret (Some "default") w' /\
    shared w' = SharedState.set ok v (fst (snd (tf x (shared w, user w)))) /\
    SharedState.getitem ok (shared w') = inr v /\
    user w' = snd (snd (tf x (shared w, user w))) /\
    heap w' = heap w /\
    trace w' = trace w ++ [EvPrep c; EvExec c x; EvPost c x v].
Proof.
  intros Hn Hdt x Hv. split.
  - intros Hc. subst x.
    unfold SharedState.get, SharedState.contains, PyDict.contains in *.
    destruct (PyDict.get ik (shared w)); [discriminate|reflexivity].
  - rewrite (DataTransformNode_run_eq w c n tf ik ok fuel Hn Hdt).
    cbv zeta. fold x. rewrite Hv.
    eexists. split; [reflexivity|]. cbn [shared user heap trace].
    repeat split.
    unfold SharedState.getitem, SharedState.setitem.
    now rewrite PyDictFacts.get_set_eq.
Qed.

(** X20. A [DataTransformNode] whose transform raises.  Its run raises
    the same exception after one call of the transform; [post] is not
    called, so the output key is not written: the shared context is
    what the transform left.  The fallback is called, once, exactly
    when the exception is an instance of [Exception]. *)
Theorem DataTransformNode_run_fails (w : world) (c : node_id) (n : node U)
    (tf : value -> umeth U value) (ik ok : string) (fuel : nat) (e : exn) :
  heap w !! c = Some n ->
  is_DataTransformNode tf ik ok n ->
  let x := SharedState.get ik VNone (shared w) in
  fst (tf x (shared w, user w)) = inl e ->
  exists w',
    _run (S fuel) c w = Raise e w' /\
    shared w' = fst (snd (tf x (shared w, user w))) /\
    user w' = snd (snd (tf x (shared w, user w))) /\
    heap w' = heap w /\
    trace w' = trace w ++
      EvPrep c :: EvExec c x ::
      (if exn_is_Exception e then [EvFallback c x e] else []).
Proof.
  intros Hn Hdt x He.
  rewrite (DataTransformNode_run_eq w c n tf ik ok fuel Hn Hdt).
  cbv zeta. fold x. rewrite He.
  eexists. split; [reflexivity|]. repeat split.
Qed.

End DataTransformFacts.

Section Pipelines.

Context {U : Type}.

Local Abbreviation world := (world U).

Lemma is_DataTransformNode_with_params (tf : value -> umeth U value) ik ok
    (n : node U) p :
  is_DataTransformNode tf ik ok n ->
  is_DataTransformNode tf ik ok (with_params n p).
Proof. intros H. exact H. Qed.

Lemma get_next_node_singleton (l : string) (c : node_id) (a : action) :
  get_next_node [(l, c)] a = (Some c, []).
Proof.
  unfold get_next_node. simpl.
  destruct (String.eqb (action_or_default a) l); reflexivity.
Qed.

(** X21. A pipeline composes its transforms.  A flow with the [prep]
    and [post] of [Flow] whose start unit is a [DataTransformNode] from
    [k0] to [k1] with a single edge to a second one from [k1] to [k2],
    which has no edge: when the two transforms are pure and return [y]
    on the input and [z] on [y], the run of the flow returns "default"
    and leaves the shared context with [y] under [k1] and [z] under
    [k2], everything else as it was. *)
Theorem transform_pipeline_composes (w : world) (f a b : node_id)
    (nf na nb : node U) (g1 g2 : value -> exn + value)
    (k0 k1 k2 l : string) (y z : value) (j : nat) :
  heap w !! f = Some nf ->
  kind nf = KFlow (Some a) ->
  prep nf = Flow_prep ->
  post nf = Flow_post ->
  heap w !! a = Some na ->
  is_DataTransformNode (pure_transform g1) k0 k1 na ->
  successors na = [(l, b)] ->
  heap w !! b = Some nb ->
  is_DataTransformNode (pure_transform g2) k1 k2 nb ->
  successors nb = [] ->
  g1 (SharedState.get k0 VNone (shared w)) = inr y ->
  g2 y = inr z ->
  exists w',
    _run (S (S (S j))) f w = Ret (Some "default") w' /\
    shared w' = SharedState.set k2 z (SharedState.set k1 y (shared w)) /\
    user w' = user w.
Proof.
  intros Hf Hkf Hprep Hpost Ha Hdta Hsa Hb Hdtb Hsb Hy Hz.
  assert (Hab : a <> b).
  { intros ->. rewrite Ha in Hb. injection Hb as ->. congruence. }
  assert (Hfa : a <> f).
  { intros ->. rewrite Ha in Hf. injection Hf as ->.
    destruct Hdta as (Hk & _). congruence. }
  assert (Hfb : b <> f).
  { intros ->. rewrite Hb in Hf. injection Hf as ->.
    destruct Hdtb as (Hk & _). congruence. }
  set (p := params nf).
  set (w1 := log [EvPrep f] w).
  set (w2 := with_node w1 a (with_params na p)).
  (* the first unit *)
  assert (Hset1 : BaseNode_set_params a p w1 = Ret tt w2)
    by (apply set_params_eq; exact Ha).
  assert (Hla : heap w2 !! a = Some (with_params na p)) by apply lookup_insert_eq.
  pose proof (DataTransformNode_run_eq w2 a _ _ k0 k1 (S j) Hla
                (is_DataTransformNode_with_params _ _ _ na p Hdta)) as Hrun1.
  cbv zeta in Hrun1. unfold pure_transform in Hrun1.
  cbn [fst snd] in Hrun1.
  change (shared w2) with (shared w) in Hrun1. rewrite Hy in Hrun1.
  set (w3 := MkWorld _ _ _ _) in Hrun1.
  assert (Hturn1 := orch_while_turn (_run (S (S j))) (S j) a p None
                      w1 w2 w3 (Some "default") _ Hset1 Hrun1 Hla).
  assert (Hnext1 : get_next_node (successors (with_params na p)) (Some "default")
                   = (Some b, [])).
  { simpl successors. rewrite Hsa. apply get_next_node_singleton. }
  rewrite Hnext1 in Hturn1. cbn [fst snd map] in Hturn1.
  rewrite log_nil in Hturn1.
  (* the second unit *)
  set (w4 := with_node w3 b (with_params nb p)).
  assert (Hb3 : heap w3 !! b = Some nb).
  { cbn. rewrite lookup_insert_ne by exact Hab. exact Hb. }
  assert (Hset2 : BaseNode_set_params b p w3 = Ret tt w4)
    by (apply set_params_eq; exact Hb3).
  assert (Hlb : heap w4 !! b = Some (with_params nb p)) by apply lookup_insert_eq.
  pose proof (DataTransformNode_run_eq w4 b _ _ k1 k2 (S j) Hlb
                (is_DataTransformNode_with_params _ _ _ nb p Hdtb)) as Hrun2.
  cbv zeta in Hrun2. unfold pure_transform in Hrun2.
  cbn [fst snd] in Hrun2.
  change (shared w4) with (SharedState.setitem k1 y (shared w)) in Hrun2.
  assert (Hread : SharedState.get k1 VNone (SharedState.setitem k1 y (shared w)) = y).
  { unfold SharedState.get, SharedState.setitem.
    now rewrite PyDictFacts.get_set_eq. }
  rewrite Hread, Hz in Hrun2.
  set (w5 := MkWorld _ _ _ _) in Hrun2.
  assert (Hturn2 := orch_while_turn (_run (S (S j))) j b p (Some "default")
                      w3 w4 w5 (Some "default") _ Hset2 Hrun2 Hlb).
  simpl successors in Hturn2. rewrite Hsb in Hturn2.
  change (get_next_node [] (Some "default")) with (@None node_id, @nil message)
    in Hturn2.
  cbn [fst snd map] in Hturn2. rewrite log_nil in Hturn2.
  (* the flow around them *)
  assert (Horch : Flow__orch (_run (S (S j))) (S (S j)) f None w1
                  = Ret (Some "default") w5).
  { unfold Flow__orch, bind, get_node.
    change (heap w1) with (heap w). rewrite Hf, Hkf.
    change (orch_params None (params nf)) with p.
    rewrite Hturn1, Hturn2. destruct j; reflexivity. }
  assert (Hf5 : heap w5 !! f = Some nf).
  { cbn. rewrite !lookup_insert_ne by assumption. exact Hf. }
  assert (Hprep_run : call_prep f w = Ret VNone w1).
  { rewrite (call_prep_eq w f nf Hf), call_eq, Hprep. reflexivity. }
  rewrite (_run_flow_eq w f nf (Some a) (S (S j)) Hf Hkf).
  unfold Flow__run. unfold bind at 1. rewrite Hprep_run.
  unfold bind at 1. rewrite Horch.
  rewrite (call_post_eq w5 f nf _ _ Hf5), call_eq, Hpost.
  eexists. split; [reflexivity|]. split; reflexivity.
Qed.

End Pipelines.

(** ** The further statements at the sample graphs *)

Module MoreSampleRuns.

Import Sample MoreSamples.

Lemma get_next_node_default_fallback_witness :
  Flow_get_next_node 1%nat (Some "unknown") w_empty_label
    = Ret (Some 3%nat) w_empty_label.
Proof.
  apply (get_next_node_default_fallback w_empty_label 1%nat
           (unit_ KBase [("", 2%nat); ("default", 3%nat)] exec_ok
              (post_mark "a" (Some "")))).
  - vm_compute. reflexivity.
  - reflexivity.
  - reflexivity.
Defined.

Lemma get_next_node_outcomes_witness :
  (exists l t, In (l, t) [("x", 2%nat); ("y", 3%nat)] /\
     Flow_get_next_node 1%nat (Some "z") w_dead_end = Ret (Some t) w_dead_end) \/
  ([("x", 2%nat); ("y", 3%nat)] = [] /\
     Flow_get_next_node 1%nat (Some "z") w_dead_end = Ret None w_dead_end) \/
  ((2 <= 2)%nat /\
   PyDict.get "default" [("x", 2%nat); ("y", 3%nat)] = None /\
   Flow_get_next_node 1%nat (Some "z") w_dead_end =
     Ret None (log [EvPrint (WarnFlowEnds (Some "z") ["x"; "y"])] w_dead_end)).
Proof.
  apply (get_next_node_outcomes w_dead_end 1%nat
           (unit_ KBase [("x", 2%nat); ("y", 3%nat)] exec_ok
              (post_mark "a" (Some "z"))) (Some "z")).
  vm_compute. reflexivity.
Defined.

Lemma next_then_route_witness :
  exists w',
    BaseNode_next 1%nat 3%nat "retry" w_unwired = Ret 3%nat w' /\
    Flow_get_next_node 1%nat (Some "retry") w' = Ret (Some 3%nat) w'.
Proof.
  destruct (next_then_route w_unwired 1%nat 3%nat n_plain "retry"
              ltac:(vm_compute; reflexivity)) as [Hlabel _].
  destruct (Hlabel ltac:(discriminate)) as (w' & Hnext & _ & Hroute).
  exists w'. split; assumption.
Defined.

Lemma rshift_chain_witness :
  exists w' na' nb',
    (let* t := BaseNode_rshift 1%nat 2%nat in BaseNode_rshift t 3%nat) w_unwired
      = Ret 3%nat w' /\
    heap w' !! 1%nat = Some na' /\
    heap w' !! 2%nat = Some nb' /\
    PyDict.get "default" (successors na') = Some 2%nat /\
    PyDict.get "default" (successors nb') = Some 3%nat.
Proof.
  destruct (rshift_chain w_unwired 1%nat 2%nat 3%nat n_plain n_plain
              ltac:(discriminate) ltac:(vm_compute; reflexivity)
              ltac:(vm_compute; reflexivity))
    as (w' & na' & nb' & Hrun & Ha & Hb & Hda & Hdb & _).
  exists w', na', nb'. repeat split; assumption.
Defined.

Lemma Node_exec_no_attempts_witness :
  _exec 1%nat (VInt 5) w_negative = Ret VNone w_negative.
Proof.
  apply (Node_exec_no_attempts w_negative 1%nat n_negative (-2) 0 (VInt 5)).
  - vm_compute. reflexivity.
  - reflexivity.
  - lia.
Defined.

Lemma Node_exec_sleeps_witness :
  exists e evs w',
    sleep_calls (evs ++ [EvExec 1%nat (VInt 5)]) = 2%nat /\
    _exec 1%nat (VInt 5) w_fail_wait = Raise e w'.
Proof.
  destruct (Node_exec_sleeps w_fail_wait 1%nat n_fail_wait 3 (1 # 2) (VInt 5)
              ltac:(vm_compute; reflexivity) eq_refl ltac:(lia))
    as [Hexhausted _].
  destruct Hexhausted as (e & evs & Hsleeps & Hrun).
  - intros m _. eexists. split; reflexivity.
  - exists e, evs. eexists. split; [exact Hsleeps|].
    rewrite Hrun. reflexivity.
Defined.

Lemma Node_exec_fallback_result_witness :
  exists w', _exec 1%nat (VInt 5) w_fail_soft = Ret (VStr "fallback") w'.
Proof.
  destruct (Node_exec_fallback_result w_fail_soft 1%nat n_fail_soft 2 0 (VInt 5)
              ltac:(vm_compute; reflexivity) eq_refl ltac:(lia))
    as (e & evs & _ & _ & _ & Hret).
  - intros m _. eexists. split; reflexivity.
  - eexists. apply Hret. reflexivity.
Defined.

Lemma Node_exec_total_with_fallback_witness :
  exists v w', _exec 1%nat (VInt 5) w_fail_soft = Ret v w'.
Proof.
  apply (Node_exec_total_with_fallback w_fail_soft 1%nat n_fail_soft 2 0 (VInt 5)).
  - vm_compute. reflexivity.
  - reflexivity.
  - intros st e He. injection He as <-. reflexivity.
  - intros e st. eexists. reflexivity.
Defined.

Lemma Node_exec_uncaught_witness :
  exists evs w',
    exec_calls (evs ++ [EvExec 1%nat (VInt 5)]) = 1%nat /\
    fallback_calls (evs ++ [EvExec 1%nat (VInt 5)]) = 0%nat /\
    sleep_calls (evs ++ [EvExec 1%nat (VInt 5)]) = 0%nat /\
    _exec 1%nat (VInt 5) w_interrupt = Raise KeyboardInterrupt w'.
Proof.
  destruct (Node_exec_uncaught w_interrupt 1%nat n_interrupt 3 (1 # 2) (VInt 5)
              1 KeyboardInterrupt
              ltac:(vm_compute; reflexivity) eq_refl ltac:(vm_compute; lia))
    as (evs & Hce & Hcf & Hsl & Hrun).
  - intros m Hm. simpl in Hm. lia.
  - reflexivity.
  - reflexivity.
  - exists evs. eexists. repeat split; eassumption.
Defined.

Lemma Flow_orch_explicit_params_witness :
  Flow__orch (_run 3) 3 0%nat (Some []) w_nested
    = Flow__orch (_run 3) 3 0%nat None w_nested.
Proof.
  destruct (Flow_orch_explicit_params w_nested 0%nat n_outer 1%nat (_run 3) 3
              ltac:(vm_compute; reflexivity) eq_refl) as (_ & _ & Hempty).
  exact Hempty.
Defined.

Lemma Flow_start_sets_start_witness :
  exists w' n',
    Flow_start 0%nat 1%nat w_unwired = Ret 1%nat w' /\
    heap w' !! 0%nat = Some n' /\
    kind n' = KFlow (Some 1%nat).
Proof.
  destruct (Flow_start_sets_start w_unwired 0%nat n_unset None 1%nat (_run 1) 1
              ltac:(vm_compute; reflexivity) eq_refl)
    as (w' & n' & Hret & Hn' & Hk & _).
  exists w', n'. repeat split; assumption.
Defined.

Lemma nested_flow_inherits_params_witness :
  orch_while (_run 3) 1 (Some 10%nat) [("k", VInt 1)] None w_nested =
  (let* r := orch_while (_run 2) 2 (Some 11%nat) [("k", VInt 1)] None in
   let* a := call_post 10%nat VNone (value_of_action r) in
   let* nxt := Flow_get_next_node 10%nat a in
   orch_while (_run 3) 0 nxt [("k", VInt 1)] a)
    (log [EvPrep 10%nat]
       (with_node w_nested 10%nat (with_params n_sub [("k", VInt 1)]))).
Proof.
  apply (nested_flow_inherits_params w_nested 10%nat n_sub 11%nat).
  - vm_compute. reflexivity.
  - reflexivity.
  - reflexivity.
Defined.

Lemma unit_failure_aborts_flow_witness :
  exists w1,
    orch_while (_run 1) 1 (Some 1%nat) [] None w_failing_flow
      = Raise (Exn "RuntimeError" "boom") w1.
Proof.
  epose proof (unit_failure_aborts_flow w_failing_flow _ _ 1%nat [] _ 1
                 ltac:(vm_compute; reflexivity)
                 ltac:(vm_compute; reflexivity)) as [Hloop _].
  eexists. apply Hloop.
Defined.

Lemma self_loop_never_terminates_witness :
  ~ terminates (_run 1000 0%nat w_self_loop).
Proof.
  generalize 1000%nat.
  apply (self_loop_never_terminates w_self_loop 0%nat 1%nat n_loop_flow n_loop "default").
  - vm_compute. reflexivity.
  - reflexivity.
  - intros ps st. eexists. reflexivity.
  - vm_compute. reflexivity.
  - intros s. discriminate.
  - reflexivity.
  - intros ps st. eexists. reflexivity.
  - intros ps v st. eexists. reflexivity.
  - intros ps v r st. eexists. reflexivity.
Defined.

Lemma run_direct_stays_on_unit_witness :
  match run 1 1%nat w_single with
  | Ret _ w' | Raise _ w' =>
      exists evs,
        trace w' = trace w_single ++
          map EvPrint [WarnWontRunSuccessors] ++ evs /\
        Forall (unit_event 1%nat) evs
  | OutOfFuel | Dangling => False
  end.
Proof.
  apply (run_direct_stays_on_unit w_single 1%nat
           (unit_ KBase [("next", 2%nat)] exec_ok (post_mark "a" (Some "other"))) 0).
  - vm_compute. reflexivity.
  - intros s. discriminate.
Defined.

Lemma DataTransformNode_run_stores_witness :
  exists w',
    _run 1 1%nat w_pipeline = Ret (Some "default") w' /\
    SharedState.getitem "mid" (shared w') = inr (VInt 10).
Proof.
  destruct (DataTransformNode_run_stores w_pipeline 1%nat n_double_wired
              (pure_transform double) "input" "mid" 0 (VInt 10)
              ltac:(vm_compute; reflexivity)
              ltac:(repeat split)
              ltac:(reflexivity))
    as (_ & w' & Hrun & _ & Hget & _).
  exists w'. split; assumption.
Defined.

Lemma DataTransformNode_run_fails_witness :
  exists w',
    _run 1 1%nat w_pipeline_no_input = Raise (Exn "TypeError" "not a number") w' /\
    shared w' = [] /\
    trace w' = [EvPrep 1%nat; EvExec 1%nat VNone;
                EvFallback 1%nat VNone (Exn "TypeError" "not a number")].
Proof.
  destruct (DataTransformNode_run_fails w_pipeline_no_input 1%nat n_double_wired
              (pure_transform double) "input" "mid" 0
              (Exn "TypeError" "not a number")
              ltac:(vm_compute; reflexivity)
              ltac:(repeat split)
              ltac:(reflexivity))
    as (w' & Hrun & Hshared & _ & _ & Htrace).
  exists w'. split; [exact Hrun|].
  split; [rewrite Hshared|rewrite Htrace]; reflexivity.
Defined.

Lemma transform_pipeline_composes_witness :
  exists w',
    _run 3 0%nat w_pipeline = Ret (Some "default") w' /\
    shared w' = [("input", VInt 5); ("mid", VInt 10); ("output", VInt 11)].
Proof.
  destruct (transform_pipeline_composes w_pipeline 0%nat 1%nat 2%nat
              n_pipeline_flow n_double_wired n_increment double increment
              "input" "mid" "output" "default" (VInt 10) (VInt 11) 0
              ltac:(vm_compute; reflexivity) eq_refl eq_refl eq_refl
              ltac:(vm_compute; reflexivity) ltac:(repeat split) eq_refl
              ltac:(vm_compute; reflexivity) ltac:(repeat split) eq_refl
              eq_refl eq_refl)
    as (w' & Hrun & Hshared & _).
  exists w'. split; [exact Hrun|]. rewrite Hshared. reflexivity.
Defined.

End MoreSampleRuns.
